(** * KIEMKEKHOGIAY: the offline sync engine, the read cache and the
      server-side batch save, embedded from the sources

    - [src/App.tsx] and the hook [useSyncWorker]: the pending queue, the
      batch dispatcher [processSyncQueue], the backoff interval, the session
      progress counters and the alias-keyed read cache;
    - [src/Code.gs]: [saveBatchToKiemKeSheet], the sheet writer that skips
      the client queue ids it has already stored, the login, the search,
      the status check and [doPost];
    - [api.ts]: [runServerFn], the transport in front of [doPost].

    JavaScript strings are taken as the bytes of their UTF-8 text
    ([string]); [toLowerCase] and [trim] are the functions of the language,
    taken as given ([Js.Strings]).  Numbers that the code only ever uses as
    small integers (intervals, timestamps) are [Z]; array lengths and the
    progress counter are [nat]. *)

From Stdlib Require Import ZArith Ascii String DecimalString DecimalPos DecimalZ.
From stdpp Require Import base tactics option list strings gmap.

Local Open Scope string_scope.

(** ** String helpers *)

Module Js.

(** [a && b] / [if (s)] on a string: the empty string is falsy. *)
Definition truthy (s : string) : bool :=
  match s with EmptyString => false | String _ _ => true end.

(** The letters and the white space of the ASCII range: [A]..[Z] are
    lowered; TAB, LF, VT, FF, CR and SPACE are white. *)
Definition lower_ascii (c : ascii) : ascii :=
  let n := nat_of_ascii c in
  if (65 <=? n)%nat && (n <=? 90)%nat then ascii_of_nat (n + 32) else c.

Fixpoint asciiLower (s : string) : string :=
  match s with
  | EmptyString => EmptyString
  | String c r => String (lower_ascii c) (asciiLower r)
  end.

Definition is_white (c : ascii) : bool :=
  let n := nat_of_ascii c in
  ((9 <=? n)%nat && (n <=? 13)%nat) || (n =? 32)%nat.

Fixpoint trimStart (s : string) : string :=
  match s with
  | EmptyString => EmptyString
  | String c r => if is_white c then trimStart r else s
  end.

Fixpoint trimEnd (s : string) : string :=
  match s with
  | EmptyString => EmptyString
  | String c r =>
      match trimEnd r with
      | EmptyString => if is_white c then EmptyString else String c EmptyString
      | r' => String c r'
      end
  end.

Definition asciiTrim (s : string) : string := trimEnd (trimStart s).

(** The text holds ASCII characters only (every byte is below 128). *)
Fixpoint isAscii (s : string) : bool :=
  match s with
  | EmptyString => true
  | String c r => (nat_of_ascii c <? 128)%nat && isAscii r
  end.

(** [String.prototype.toLowerCase] and [String.prototype.trim].  Their
    tables (the case mapping of Unicode, the white space and line
    terminators of ECMAScript) are not in the sources: the two functions
    are taken as given, with three facts about them.  Lower-casing never
    empties a text; on ASCII text lower-casing lowers [A]..[Z] only, and
    trimming strips TAB, LF, VT, FF, CR and SPACE only. *)
Class Strings := {
  toLowerCase : string → string;
  trim : string → string;
  toLowerCase_text s : toLowerCase s = EmptyString → s = EmptyString;
  toLowerCase_7bit s : isAscii s = true → toLowerCase s = asciiLower s;
  trim_7bit s : isAscii s = true → trim s = asciiTrim s
}.

(** The two functions on ASCII text, every other byte being kept. *)
Definition ascii : Strings.
Proof.
  refine {| toLowerCase := asciiLower; trim := asciiTrim |}.
  - intros s. destruct s; [reflexivity|discriminate].
  - reflexivity.
  - reflexivity.
Defined.

(** The decimal text of an integer, as a template literal prints it. *)
Definition decimal (z : Z) : string := NilZero.string_of_int (Z.to_int z).

End Js.

(** ** Domain records *)

(** [PaperRoll], with the nineteen columns the backend maps in
    [searchPaperBySku]; every column travels as its display text. *)
Record PaperRoll := {
  sku : string;
  purpose : string;
  packageId : string;
  type : string;
  gsm : string;
  supplier : string;
  manufacturer : string;
  importDate : string;
  prodDate : string;
  lengthCm : string;
  widthCm : string;
  weight : string;
  quantity : string;
  customerOrder : string;
  materialCode : string;
  location : string;
  pendingOut : string;
  importer : string;
  updatedAt : string
}.

#[global] Instance PaperRoll_eq_dec : EqDecision PaperRoll.
Proof. solve_decision. Defined.

(** [interface QueueItem]. *)
Record QueueItem := {
  id : string;
  data : PaperRoll;
  timestamp : Z;
  retryCount : nat
}.

#[global] Instance QueueItem_eq_dec : EqDecision QueueItem.
Proof. solve_decision. Defined.

(** ** The read cache ([dataCache], a [Map<string, PaperRoll>]) *)

Module Cache.

Section Cache_strings.
Context {js : Js.Strings}.

(** [updateCache]: copy the map, then set the record under its lower-cased
    [sku] and under its lower-cased [packageId], each only when truthy. *)
Definition updateCache (item : PaperRoll) (prev : gmap string PaperRoll)
  : gmap string PaperRoll :=
  let newCache := prev in
  let newCache :=
    if Js.truthy (sku item)
    then <[Js.toLowerCase (sku item) := item]> newCache else newCache in
  let newCache :=
    if Js.truthy (packageId item)
    then <[Js.toLowerCase (packageId item) := item]> newCache else newCache in
  newCache.

(** The cache branch of [handleSearch]: the code is trimmed, then
    lower-cased, and the record is served when the map has it. *)
Definition normalizedCode (code : string) : string :=
  Js.toLowerCase (Js.trim code).


End Cache_strings.

End Cache.

(** The element of the array sent to [saveBatchToKiemKeSheet]:
    [{...b.data, _clientQueueId: b.id}].  The backend receives parsed JSON,
    in which the token may also be missing, and in which an element of the
    array may be [null] instead of an object: the array is then a
    [list (option BatchItem)], [None] being [null]. *)
Record BatchItem := {
  payload : PaperRoll;
  _clientQueueId : option string
}.

(** ** The sync engine ([App.tsx], [useSyncWorker]) *)

Module Sync.

Section Sync_strings.
Context {js : Js.Strings}.

Definition BATCH_SIZE : nat := 5.

Inductive Severity := success | error | info.

(** The texts passed to [showNotification], by their template. *)
Inductive Message :=
| SavedOffline (sku : string)   (* "Da luu <sku> (Offline Ready)" *)
| SavedBatch (n : nat)          (* "Da luu <n> phieu len he thong" *)
| SyncError (reason : string)   (* "Loi dong bo: <error.message || default>" *)
| NoNetwork                     (* "Khong co ket noi mang!" *)
| AllSynced                     (* "Tat ca du lieu da duoc dong bo" *)
| Syncing.                      (* "Dang dong bo du lieu..." *)

Record Notification := { message : Message; severity : Severity }.

(** How the promise of [api.saveBatchToKiemKeSheet] settles. *)
Inductive Outcome :=
| Resolved
| Rejected (errorMessage : string).

(** A call of [processSyncQueue] suspended at its [await]: the constants
    of its closure. *)
Record Dispatch := {
  batch : list QueueItem;
  batchItems : list BatchItem;
  seenIntervalMs : Z
}.

(** The component state: the [useState] cells of the engine and the ref,
    and four observers of its effects on the outside world:
    [notifications] keeps every [showNotification] call in order (the
    dismissal after three seconds is left out), [timer] is the pending
    timeout of the trigger loop, [inflight] the dispatches suspended at
    their [await], [calls] the log of every network call issued. *)
Record State := {
  offlineQueue : list QueueItem;
  sessionTotal : nat;
  isSyncing : bool;
  syncIntervalMs : Z;
  isSyncingRef : bool;
  dataCache : gmap string PaperRoll;
  notifications : list Notification;
  timer : option Z;
  inflight : list Dispatch;
  calls : list (list BatchItem)
}.

(** The values of the [useState] initialisers. *)
Definition initial : State := {|
  offlineQueue := [];
  sessionTotal := 0;
  isSyncing := false;
  syncIntervalMs := 10000;
  isSyncingRef := false;
  dataCache := ∅;
  notifications := [];
  timer := None;
  inflight := [];
  calls := []
|}.

Definition showNotification (m : Message) (t : Severity) (s : State) : State := {|
  offlineQueue := offlineQueue s;
  sessionTotal := sessionTotal s;
  isSyncing := isSyncing s;
  syncIntervalMs := syncIntervalMs s;
  isSyncingRef := isSyncingRef s;
  dataCache := dataCache s;
  notifications := notifications s ++ [{| message := m; severity := t |}];
  timer := timer s;
  inflight := inflight s;
  calls := calls s
|}.

Definition setSyncIntervalMs (f : Z -> Z) (s : State) : State := {|
  offlineQueue := offlineQueue s;
  sessionTotal := sessionTotal s;
  isSyncing := isSyncing s;
  syncIntervalMs := f (syncIntervalMs s);
  isSyncingRef := isSyncingRef s;
  dataCache := dataCache s;
  notifications := notifications s;
  timer := timer s;
  inflight := inflight s;
  calls := calls s
|}.

(** [initData] / [loadQueue]: the persisted queue replaces the state, and
    a non-empty one arms the session total. *)
Definition loadQueue (queue : list QueueItem) (s : State) : State := {|
  offlineQueue := queue;
  sessionTotal := if (0 <? length queue)%nat then length queue else sessionTotal s;
  isSyncing := isSyncing s;
  syncIntervalMs := syncIntervalMs s;
  isSyncingRef := isSyncingRef s;
  dataCache := dataCache s;
  notifications := notifications s;
  timer := timer s;
  inflight := inflight s;
  calls := calls s
|}.

(** [addToQueue] (inlined at the end of [handleConfirmCheck] in
    [App.tsx]): the id is ["q-" + Date.now()]; [Date.now()] is read a
    second time for the timestamp. *)
Definition newQueueItem (item : PaperRoll) (nowId nowTimestamp : Z) : QueueItem := {|
  id := "q-" ++ Js.decimal nowId;
  data := item;
  timestamp := nowTimestamp;
  retryCount := 0
|}.

Definition addToQueue (item : PaperRoll) (nowId nowTimestamp : Z) (s : State) : State := {|
  offlineQueue := offlineQueue s ++ [newQueueItem item nowId nowTimestamp];
  sessionTotal := sessionTotal s + 1;
  isSyncing := isSyncing s;
  syncIntervalMs := syncIntervalMs s;
  isSyncingRef := isSyncingRef s;
  dataCache := dataCache s;
  notifications := notifications s;
  timer := timer s;
  inflight := inflight s;
  calls := calls s
|}.

Definition setDataCache (f : gmap string PaperRoll -> gmap string PaperRoll)
    (s : State) : State := {|
  offlineQueue := offlineQueue s;
  sessionTotal := sessionTotal s;
  isSyncing := isSyncing s;
  syncIntervalMs := syncIntervalMs s;
  isSyncingRef := isSyncingRef s;
  dataCache := f (dataCache s);
  notifications := notifications s;
  timer := timer s;
  inflight := inflight s;
  calls := calls s
|}.

(** What [handleConfirmCheck] reads besides the state. *)
Record Confirmation := {
  itemToSave : option PaperRoll;     (* overrideItem || foundItem *)
  currentUser : option string;       (* currentUser.name *)
  formattedTime : string;
  nowId : Z;
  nowTimestamp : Z
}.

Definition finalData (itemToSave : PaperRoll) (user time : string) : PaperRoll := {|
  sku := sku itemToSave;
  purpose := purpose itemToSave;
  packageId := packageId itemToSave;
  type := type itemToSave;
  gsm := gsm itemToSave;
  supplier := supplier itemToSave;
  manufacturer := manufacturer itemToSave;
  importDate := importDate itemToSave;
  prodDate := prodDate itemToSave;
  lengthCm := lengthCm itemToSave;
  widthCm := widthCm itemToSave;
  weight := weight itemToSave;
  quantity := quantity itemToSave;
  customerOrder := customerOrder itemToSave;
  materialCode := materialCode itemToSave;
  location := location itemToSave;
  pendingOut := pendingOut itemToSave;
  importer := user;
  updatedAt := time
|}.

Definition handleConfirmCheck (c : Confirmation) (s : State) : State :=
  match itemToSave c, currentUser c with
  | Some item, Some user =>
      let final := finalData item user (formattedTime c) in
      let s := setDataCache (Cache.updateCache final) s in
      let s := showNotification (SavedOffline (sku final)) success s in
      addToQueue final (nowId c) (nowTimestamp c) s
  | _, _ => s
  end.

(** [batch.map(b => ({...b.data, _clientQueueId: b.id}))]. *)
Definition toBatchItem (b : QueueItem) : BatchItem :=
  {| payload := data b; _clientQueueId := Some (id b) |}.

(** [processSyncQueue] up to its [await]: the guard, the flags, the batch
    and the network call. *)
Definition processSyncQueue (onLine : bool) (s : State) : State :=
  if (length (offlineQueue s) =? 0)%nat || isSyncingRef s || negb onLine
  then s
  else
    let batch := take BATCH_SIZE (offlineQueue s) in
    let batchItems := toBatchItem <$> batch in
    {| offlineQueue := offlineQueue s;
       sessionTotal := sessionTotal s;
       isSyncing := true;
       syncIntervalMs := syncIntervalMs s;
       isSyncingRef := true;
       dataCache := dataCache s;
       notifications := notifications s;
       timer := timer s;
       inflight := inflight s ++
         [{| batch := batch; batchItems := batchItems;
             seenIntervalMs := syncIntervalMs s |}];
       calls := calls s ++ [batchItems] |}.

(** The [finally] block. *)
Definition finish (rest : list Dispatch) (s : State) : State := {|
  offlineQueue := offlineQueue s;
  sessionTotal := sessionTotal s;
  isSyncing := false;
  syncIntervalMs := syncIntervalMs s;
  isSyncingRef := false;
  dataCache := dataCache s;
  notifications := notifications s;
  timer := timer s;
  inflight := rest;
  calls := calls s
|}.

Definition setOfflineQueue (f : list QueueItem -> list QueueItem) (s : State) : State := {|
  offlineQueue := f (offlineQueue s);
  sessionTotal := sessionTotal s;
  isSyncing := isSyncing s;
  syncIntervalMs := syncIntervalMs s;
  isSyncingRef := isSyncingRef s;
  dataCache := dataCache s;
  notifications := notifications s;
  timer := timer s;
  inflight := inflight s;
  calls := calls s
|}.

(** [error.message || 'Mat ket noi']. *)
Definition errorText (errorMessage : string) : string :=
  if Js.truthy errorMessage then errorMessage else "Mat ket noi".

(** [processSyncQueue] after its [await]: the [try] tail on success, the
    [catch] on failure, then [finally].  The state is read through the
    functional updates; [batch] and [syncIntervalMs] are the closure's. *)
Definition resume (d : Dispatch) (o : Outcome) (rest : list Dispatch) (s : State) : State :=
  match o with
  | Resolved =>
      let s := setOfflineQueue (drop (length (batch d))) s in
      let s := showNotification (SavedBatch (length (batch d))) success s in
      let s := setSyncIntervalMs (fun _ => 1000%Z) s in
      finish rest s
  | Rejected msg =>
      let s := setSyncIntervalMs (fun prev => Z.min (prev * 2) 300000) s in
      let s :=
        if (60000 <? seenIntervalMs d)%Z
        then showNotification (SyncError (errorText msg)) error s else s in
      finish rest s
  end.

Definition settle (o : Outcome) (s : State) : State :=
  match inflight s with
  | [] => s
  | d :: rest => resume d o rest s
  end.

(** The [online] listener. *)
Definition handleOnline (s : State) : State :=
  if (0 <? length (offlineQueue s))%nat
  then setSyncIntervalMs (fun _ => 100%Z) s else s.

Definition handleManualSync (onLine : bool) (s : State) : State :=
  if negb onLine then showNotification NoNetwork error s
  else if (length (offlineQueue s) =? 0)%nat
  then showNotification AllSynced success s
  else setSyncIntervalMs (fun _ => 100%Z) (showNotification Syncing info s).

(** *** Effects

    The [useEffect] bodies that write state.  An effect runs after a
    render whose dependencies differ from the previous render's; arrays
    are compared by identity, and every update of the queue here builds an
    array of another length, so comparing the values decides the same. *)

(** Dependencies [offlineQueue.length]. *)
Definition resetEffect (s : State) : State :=
  if (length (offlineQueue s) =? 0)%nat then {|
    offlineQueue := offlineQueue s;
    sessionTotal := 0;
    isSyncing := false;
    syncIntervalMs := syncIntervalMs s;
    isSyncingRef := isSyncingRef s;
    dataCache := dataCache s;
    notifications := notifications s;
    timer := timer s;
    inflight := inflight s;
    calls := calls s
  |} else s.

(** Dependencies [offlineQueue, syncIntervalMs, processSyncQueue]: the
    cleanup clears the pending timer, the body arms a new one or resets
    the interval of an empty queue. *)
Definition triggerEffect (s : State) : State :=
  if (0 <? length (offlineQueue s))%nat then {|
    offlineQueue := offlineQueue s;
    sessionTotal := sessionTotal s;
    isSyncing := isSyncing s;
    syncIntervalMs := syncIntervalMs s;
    isSyncingRef := isSyncingRef s;
    dataCache := dataCache s;
    notifications := notifications s;
    timer := Some (syncIntervalMs s);
    inflight := inflight s;
    calls := calls s
  |} else {|
    offlineQueue := offlineQueue s;
    sessionTotal := sessionTotal s;
    isSyncing := isSyncing s;
    syncIntervalMs :=
      if bool_decide (syncIntervalMs s ≠ 10000%Z) then 10000%Z else syncIntervalMs s;
    isSyncingRef := isSyncingRef s;
    dataCache := dataCache s;
    notifications := notifications s;
    timer := None;
    inflight := inflight s;
    calls := calls s
  |}.

Definition effects (prev cur : State) : State :=
  let s :=
    if bool_decide (length (offlineQueue prev) = length (offlineQueue cur))
    then cur else resetEffect cur in
  if bool_decide (offlineQueue prev = offlineQueue cur
                  ∧ syncIntervalMs prev = syncIntervalMs cur)
  then s else triggerEffect s.

(** A handler's updates are rendered, the effects run, and the state they
    set is rendered once more. *)
Definition commit (prev cur : State) : State :=
  effects cur (effects prev cur).

(** *** Events *)

Inductive Event :=
| Confirm (c : Confirmation)
| TimerFire (onLine : bool)
| Settle (o : Outcome)
| Online
| ManualSync (onLine : bool).

Definition clearTimer (s : State) : State := {|
  offlineQueue := offlineQueue s;
  sessionTotal := sessionTotal s;
  isSyncing := isSyncing s;
  syncIntervalMs := syncIntervalMs s;
  isSyncingRef := isSyncingRef s;
  dataCache := dataCache s;
  notifications := notifications s;
  timer := None;
  inflight := inflight s;
  calls := calls s
|}.

Definition handle (e : Event) (s : State) : State :=
  match e with
  | Confirm c => handleConfirmCheck c s
  | TimerFire onLine =>
      match timer s with
      | Some _ => processSyncQueue onLine (clearTimer s)
      | None => s
      end
  | Settle o => settle o s
  | Online => handleOnline s
  | ManualSync onLine => handleManualSync onLine s
  end.

Definition step (e : Event) (s : State) : State := commit s (handle e s).

Definition run (es : list Event) (s : State) : State :=
  foldl (fun s e => step e s) s es.

(** Start-up: the persisted queue is loaded once. *)
Definition boot (queue : list QueueItem) : State :=
  commit initial (loadQueue queue initial).

Definition reachable (s : State) : Prop :=
  exists queue es, s = run es (boot queue).

(** One turn of the trigger loop: the timer fires with the device on line,
    then the network call settles. *)
Definition dispatchCycle (o : Outcome) (s : State) : State :=
  step (Settle o) (step (TimerFire true) s).

(** The queue items an event appends. *)
Definition enqueuedBy (e : Event) : list QueueItem :=
  match e with
  | Confirm c =>
      match itemToSave c, currentUser c with
      | Some item, Some user =>
          [newQueueItem (finalData item user (formattedTime c))
             (nowId c) (nowTimestamp c)]
      | _, _ => []
      end
  | _ => []
  end.

(** A confirmation that passes the guard of [handleConfirmCheck]. *)
Definition confirmable (c : Confirmation) : Prop :=
  is_Some (itemToSave c) ∧ is_Some (currentUser c).

Definition isSettle (e : Event) : bool :=
  match e with Settle _ => true | _ => false end.

(** The error notifications shown so far. *)
Definition errorsShown (s : State) : list Notification :=
  List.filter (fun n => match severity n with error => true | _ => false end)
    (notifications s).

(** Whether the dependencies of the trigger loop differ between two
    renders. *)
Definition retrigger (prev cur : State) : bool :=
  negb (bool_decide (offlineQueue prev = offlineQueue cur
                     ∧ syncIntervalMs prev = syncIntervalMs cur)).

(** The shape of the states of a session: at most one dispatch is
    suspended, its batch is a front part of the queue, the flags agree
    with it, the counters and the timer follow the queue. *)
Record Inv (s : State) : Prop := {
  inv_flight :
    match inflight s with
    | [] => isSyncingRef s = false ∧ isSyncing s = false
    | [d] => isSyncingRef s = true ∧ isSyncing s = true
             ∧ batch d ≠ [] ∧ batch d `prefix_of` offlineQueue s
             ∧ (length (batch d) ≤ BATCH_SIZE)%nat
             ∧ batchItems d = toBatchItem <$> batch d
    | _ => False
    end;
  inv_total : (length (offlineQueue s) ≤ sessionTotal s)%nat;
  inv_empty :
    offlineQueue s = [] →
    sessionTotal s = 0 ∧ syncIntervalMs s = 10000%Z ∧ timer s = None;
  inv_interval : (100 ≤ syncIntervalMs s ≤ 300000)%Z;
  inv_timer :
    ∀ i, timer s = Some i → i = syncIntervalMs s ∧ offlineQueue s ≠ []
}.

(** A state in which the trigger loop can launch a dispatch: nothing is
    suspended, the queue has work and the timer is pending. *)
Definition armed (s : State) : Prop :=
  Inv s ∧ inflight s = [] ∧ offlineQueue s ≠ [] ∧ timer s ≠ None.

End Sync_strings.

End Sync.

(** ** The backend ([Code.gs]) *)

Module Server.

(** A sheet is its rows 1 .. [getLastRow()], the last of which has
    content; a row is its cells from column A on, a blank cell being the
    empty text.  A cell holds the text that was written to it. *)
Definition Row := list string.
Definition Sheet := list Row.

(** The spreadsheet that [SpreadsheetApp.openById] returns: its sheets by
    name. *)
Definition header : Row :=
  ["SKU"; "Muc Dich"; "Kien Giay"; "Loai Giay"; "Dinh Luong";
   "Nha CC"; "Nha SX"; "Ngay Nhap"; "Ngay SX"; "Dai (cm)";
   "Rong (cm)"; "Trong Luong"; "So Luong"; "Don Hang"; "Ma VT";
   "Vi Tri"; "Cho Xuat"; "Nguoi Kiem"; "Thoi Gian"; "Client ID"].

Inductive Reply :=
| Added (added : nat)
| Thrown.

Definition getLastRow (sheet : Sheet) : nat := length sheet.

(** [sheet.getRange(2, 20, lastRow - 1, 1).getValues()], read when
    [lastRow > 1]: column T of the rows below the first. *)
Definition clientIdColumn (sheet : Sheet) : list string :=
  if (1 <? getLastRow sheet)%nat
  then (fun r : Row => nth 19 r EmptyString) <$> drop 1 sheet
  else [].

(** [ids.forEach(r => { if (r[0]) existingIds.add(String(r[0])) })]. *)
Definition existingIds (sheet : Sheet) : gset string :=
  list_to_set (List.filter Js.truthy (clientIdColumn sheet)).

(** [item._clientQueueId && existingIds.has(String(item._clientQueueId))]. *)
Definition skipped (ids : gset string) (item : BatchItem) : bool :=
  match _clientQueueId item with
  | Some t => Js.truthy t && bool_decide (t ∈ ids)
  | None => false
  end.

(** The row pushed for an item; a missing token leaves its cell blank. *)
Definition rowOf (nowStr : string) (item : BatchItem) : Row :=
  let p := payload item in
  [sku p; purpose p; packageId p; type p; gsm p;
   supplier p; manufacturer p; importDate p; prodDate p;
   lengthCm p; widthCm p; weight p; quantity p; customerOrder p;
   materialCode p; location p; pendingOut p; importer p;
   "'" ++ nowStr;
   default EmptyString (_clientQueueId item)].

(** [for (const item of dataArray)]: an item stored already is passed
    over, any other pushes its row.  On a [null] element the read of
    [item._clientQueueId] throws and the loop is left: [None]. *)
Fixpoint rowsToAdd (nowStr : string) (ids : gset string)
    (dataArray : list (option BatchItem)) : option (list Row) :=
  match dataArray with
  | [] => Some []
  | None :: _ => None
  | Some item :: rest =>
      match rowsToAdd nowStr ids rest with
      | None => None
      | Some rows =>
          Some (if skipped ids item then rows else rowOf nowStr item :: rows)
      end
  end.

(** [sheetName || 'KIEMKE']. *)
Definition targetNameOf (sheetName : option string) : string :=
  match sheetName with
  | Some n => if Js.truthy n then n else "KIEMKE"
  | None => "KIEMKE"
  end.

(** [saveBatchToKiemKeSheet(dataArray, spreadSheetId, sheetName)] on the
    spreadsheet [ss] that its id opens.  [lockGranted] tells whether
    [lock.waitLock] returns or throws; [nowStr] is the formatted clock.
    The new rows are written from row [lastRow + 1] on, that is, after the
    rows of the sheet.  An exception thrown in the loop is thrown again
    after the missing sheet has been inserted with its header: nothing
    undoes that. *)
Definition saveBatchToKiemKeSheet
    (lockGranted : bool) (nowStr : string)
    (dataArray : list (option BatchItem)) (sheetName : option string)
    (ss : gmap string Sheet) : gmap string Sheet * Reply :=
  if (length dataArray =? 0)%nat then (ss, Added 0)
  else
    let targetName := targetNameOf sheetName in
    if negb lockGranted then (ss, Thrown)
    else
      let '(ss, sheet) :=
        match ss !! targetName with
        | Some sheet => (ss, sheet)
        | None => (<[targetName := [header]]> ss, [header])
        end in
      let ids := existingIds sheet in
      match rowsToAdd nowStr ids dataArray with
      | None => (ss, Thrown)
      | Some rows =>
          let ss :=
            if (0 <? length rows)%nat
            then <[targetName := (sheet ++ rows)%list]> ss
            else ss in
          (ss, Added (length rows))
      end.

(** *** Vocabulary of the properties *)

(** The sheet that a save works on: the one of that name, or the sheet
    it creates, which holds the header row. *)
Definition sheetFor (sheetName : option string) (ss : gmap string Sheet) : Sheet :=
  default [header] (ss !! targetNameOf sheetName).

(** The cells of the Client ID column: column T of the rows under the
    header row. *)
Definition clientIds (sheet : Sheet) : list string :=
  (fun r : Row => nth 19 r EmptyString) <$> drop 1 sheet.

(** The token of the item is a text already in the Client ID column. *)
Definition alreadyStored (sheet : Sheet) (item : BatchItem) : Prop :=
  match _clientQueueId item with
  | Some t => t ≠ EmptyString ∧ t ∈ clientIds sheet
  | None => False
  end.

#[global] Instance alreadyStored_dec sheet item : Decision (alreadyStored sheet item).
Proof. unfold alreadyStored. destruct (_clientQueueId item); apply _. Defined.

(** The item carries an idempotency token. *)
Definition hasToken (item : BatchItem) : Prop :=
  match _clientQueueId item with
  | Some t => t ≠ EmptyString
  | None => False
  end.

End Server.

(** ** The rest of the backend ([Code.gs]) *)

Module Backend.
Import Server.

Section Backend_strings.
Context {js : Js.Strings}.

(** [SOURCE_SHEET_ID] and [TARGET_SHEET_ID]. *)
Definition SOURCE_SHEET_ID : string := "1DSg_2nJoPkAfudCy4QnHBEbvKhwHm-j6Cd9CK_cwfkg".
Definition TARGET_SHEET_ID : string := "1zMacxcKnAAeSnIBUU3RrhreRUEEoXmvfTjvkCEjlX9o".

(** The files that [SpreadsheetApp.openById] can open, by id; opening an
    id that is not there throws. *)
Definition Files := gmap string (gmap string Sheet).

Definition cell (n : nat) (r : Row) : string := nth n r EmptyString.

(** [checkLogin]: the loop over the rows read from row 2 on, columns A
    and B. *)
Fixpoint loginRow (inputUser inputPass : string) (data : list Row) : bool :=
  match data with
  | [] => false
  | r :: rest =>
      let rowUser := Js.trim (Js.toLowerCase (cell 0 r)) in
      let rowPass := Js.trim (cell 1 r) in
      if String.eqb rowUser inputUser && String.eqb rowPass inputPass
      then true
      else loginRow inputUser inputPass rest
  end.

(** [checkLogin(username, password)]; every exception is caught and gives
    [false]. *)
Definition checkLogin (username password : option string) (files : Files) : bool :=
  match username, password with
  | Some username, Some password =>
      if negb (Js.truthy username) || negb (Js.truthy password) then false
      else
        match files !! TARGET_SHEET_ID with
        | None => false
        | Some ss =>
            match ss !! "DN" with
            | None => false
            | Some sheet =>
                let lastRow := getLastRow sheet in
                if (lastRow <? 2)%nat then false
                else
                  let data := drop 1 sheet in
                  let inputUser := Js.trim (Js.toLowerCase username) in
                  let inputPass := Js.trim password in
                  loginRow inputUser inputPass data
            end
        end
  | _, _ => false
  end.

(** [sheet.getRange("A:A").createTextFinder(text).matchEntireCell(true)
    .matchCase(false).findNext()]: the first row whose cell in column A
    is, letter case apart, the whole text.  An empty text finds nothing. *)
Fixpoint findNext (text : string) (rows : list Row) : option Row :=
  match rows with
  | [] => None
  | r :: rest =>
      if String.eqb (Js.toLowerCase (cell 0 r)) (Js.toLowerCase text)
      then Some r else findNext text rest
  end.

Definition textFinder (text : string) (sheet : Sheet) : option Row :=
  if Js.truthy text then findNext text sheet else None.

(** The object built from the nineteen columns of the row found. *)
Definition rowToPaper (rowData : Row) : PaperRoll := {|
  sku := cell 0 rowData;
  purpose := cell 1 rowData;
  packageId := cell 2 rowData;
  type := cell 3 rowData;
  gsm := cell 4 rowData;
  supplier := cell 5 rowData;
  manufacturer := cell 6 rowData;
  importDate := cell 7 rowData;
  prodDate := cell 8 rowData;
  lengthCm := cell 9 rowData;
  widthCm := cell 10 rowData;
  weight := cell 11 rowData;
  quantity := cell 12 rowData;
  customerOrder := cell 13 rowData;
  materialCode := cell 14 rowData;
  location := cell 15 rowData;
  pendingOut := cell 16 rowData;
  importer := cell 17 rowData;
  updatedAt := cell 18 rowData
|}.

(** [searchPaperBySku(sku)]; [null] is [None]. *)
Definition searchPaperBySku (sku : option string) (files : Files) : option PaperRoll :=
  match sku with
  | Some sku =>
      if negb (Js.truthy sku) then None
      else
        let searchSku := Js.trim sku in
        match files !! SOURCE_SHEET_ID with
        | None => None
        | Some ss =>
            match ss !! "KHO" with
            | None => None
            | Some sheet => rowToPaper <$> textFinder searchSku sheet
            end
        end
  | None => None
  end.

(** [{ exists: false }] or [{ exists: true, scannedBy, scannedAt }]. *)
Inductive CheckStatus :=
| Absent
| Present (scannedBy scannedAt : string).

Definition exists_ (st : CheckStatus) : bool :=
  match st with Absent => false | Present _ _ => true end.

(** [a || b] on an optional text. *)
Definition orElse (a : option string) (b : string) : string :=
  match a with
  | Some a => if Js.truthy a then a else b
  | None => b
  end.

(** [checkSkuInKiemKe(sku, spreadSheetId, sheetName)]. *)
Definition checkSkuInKiemKe
    (sku spreadSheetId sheetName : option string) (files : Files) : CheckStatus :=
  match sku with
  | Some sku =>
      if negb (Js.truthy sku) then Absent
      else
        let targetId := orElse spreadSheetId TARGET_SHEET_ID in
        let targetName := orElse sheetName "KIEMKE" in
        match files !! targetId with
        | None => Absent
        | Some ss =>
            match ss !! targetName with
            | None => Absent
            | Some sheet =>
                match textFinder (Js.trim sku) sheet with
                | Some info => Present (cell 17 info) (cell 18 info)
                | None => Absent
                end
            end
        end
  | None => Absent
  end.

(** [saveBatchToKiemKeSheet] with the file it opens: the guard on the
    array comes first, then the lock, then [openById]. *)
Definition saveBatch
    (lockGranted : bool) (nowStr : string)
    (dataArray : option (list (option BatchItem)))
    (spreadSheetId sheetName : option string)
    (files : Files) : Files * Reply :=
  match dataArray with
  | None => (files, Added 0)
  | Some dataArray =>
      if (length dataArray =? 0)%nat then (files, Added 0)
      else
        let targetId := orElse spreadSheetId TARGET_SHEET_ID in
        if negb lockGranted then (files, Thrown)
        else
          match files !! targetId with
          | None => (files, Thrown)
          | Some ss =>
              let '(ss, reply) :=
                saveBatchToKiemKeSheet lockGranted nowStr dataArray sheetName ss in
              (<[targetId := ss]> files, reply)
          end
  end.

(** The parsed body of a request, [{ action, args }], with the arguments
    each action reads. *)
Inductive Call :=
| CallCheckLogin (username password : option string)
| CallSearchPaperBySku (sku : option string)
| CallCheckSkuInKiemKe (sku spreadSheetId sheetName : option string)
| CallSaveBatch (items : option (list (option BatchItem)))
    (spreadSheetId sheetName : option string)
| CallUnknown (action : string).

(** What [doPost] receives: no [postData.contents], contents that
    [JSON.parse] rejects, or a call. *)
Inductive Post :=
| NoData
| Unparsable
| Posted (c : Call).

Inductive Data :=
| DBool (b : bool)
| DPaper (r : option PaperRoll)
| DStatus (st : CheckStatus)
| DAdded (added : nat).

(** [{ status: 'success', data }] or [{ status: 'error', message }]. *)
Inductive Wire :=
| WSuccess (data : Data)
| WError (message : string).

(** [doPost(e)]; [thrown] is the text of the exception, when one is
    caught.  What a save has written before it throws stays written. *)
Definition doPost
    (lockGranted : bool) (nowStr thrown : string) (e : Post) (files : Files)
    : Files * Wire :=
  match e with
  | NoData => (files, WError "No data")
  | Unparsable => (files, WError thrown)
  | Posted (CallCheckLogin u p) => (files, WSuccess (DBool (checkLogin u p files)))
  | Posted (CallSearchPaperBySku sku) =>
      (files, WSuccess (DPaper (searchPaperBySku sku files)))
  | Posted (CallCheckSkuInKiemKe sku id name) =>
      (files, WSuccess (DStatus (checkSkuInKiemKe sku id name files)))
  | Posted (CallSaveBatch items id name) =>
      match saveBatch lockGranted nowStr items id name files with
      | (files, Added n) => (files, WSuccess (DAdded n))
      | (files, Thrown) => (files, WError thrown)
      end
  | Posted (CallUnknown action) => (files, WError ("Unknown action: " ++ action))
  end.

End Backend_strings.

End Backend.

(** ** The transport ([api.ts]) *)

Module Api.
Import Backend.

Section Api_strings.
Context {js : Js.Strings}.

(** The body of a response: text that is not JSON, the wrapper of
    [doPost], or other JSON (no [status], or one that is neither
    ['success'] nor ['error'], as the message of [doGet]).  The texts in
    Vietnamese are written without their diacritics. *)
Inductive Body :=
| NotJson
| JsonWire (w : Wire)
| JsonOther.

(** [fetch] rejects, or answers with [response.ok], its status line and
    its body. *)
Inductive Http :=
| NetworkError (message : string)
| Response (ok : bool) (statusLine : string) (body : Body).

Inductive Payload :=
| PData (data : Data)
| PRaw.

Inductive Settled :=
| Returns (p : Payload)
| Throws (message : string).

(** [runServerFn], the [fetch] branch. *)
Definition runServerFn (h : Http) : Settled :=
  match h with
  | NetworkError message => Throws message
  | Response ok statusLine body =>
      if negb ok then Throws ("Server Error: " ++ statusLine)
      else
        match body with
        | NotJson =>
            Throws ("Server tra ve du lieu khong hop le (HTML). "
                    ++ "Vui long kiem tra Deployment (Web App: Anyone).")
        | JsonWire (WSuccess data) => Returns (PData data)
        | JsonWire (WError message) =>
            Throws (if Js.truthy message then message else "Loi xu ly tu Server")
        | JsonOther => Returns PRaw
        end
  end.

(** How [await api.saveBatchToKiemKeSheet(batchItems)] ends in
    [processSyncQueue]. *)
Definition outcomeOf (r : Settled) : Sync.Outcome :=
  match r with
  | Returns _ => Sync.Resolved
  | Throws message => Sync.Rejected message
  end.

(** [api.saveBatchToKiemKeSheet(items)] against the backend over a
    connection that delivers the request and the answer; the items are
    the objects that [processSyncQueue] builds. *)
Definition saveOverHttp
    (lockGranted : bool) (nowStr thrown : string)
    (items : list BatchItem) (files : Files) : Files * Settled :=
  let '(files, w) :=
    doPost lockGranted nowStr thrown
      (Posted (CallSaveBatch (Some (Some <$> items)) None None)) files in
  (files, runServerFn (Response true "200 OK" (JsonWire w))).

End Api_strings.

End Api.

(** ** Searching and editing ([App.tsx]) *)

Module Search.
Import Backend.

(** The notifications of the search flow, by their template. *)
Inductive Notice :=
| NotFound (code : string)        (* "Khong tim thay ma: <code>" *)
| ApiError (message : string).    (* "Loi API: <error.message || default>" *)

(** The state cells the search flow reads and writes; [notices] keeps the
    error notifications it shows. *)
Record View := {
  foundItem : option PaperRoll;
  searchError : bool;
  checkStatus : option CheckStatus;
  isLoadingSearch : bool;
  dataCache : gmap string PaperRoll;
  notices : list Notice
}.

(** How a call of the [api] object ends. *)
Inductive Answer (A : Type) :=
| Ok (a : A)
| Failed (message : string).
Arguments Ok {A} a.
Arguments Failed {A} message.

Inductive ApiCall :=
| SearchPaperBySku (code : string)
| CheckSkuInKiemKe (code : string).

(** [if (status && status.exists) setCheckStatus(status)]; a failed check
    is only logged. *)
Definition statusSeen (prev : option CheckStatus) (a : Answer CheckStatus)
  : option CheckStatus :=
  match a with
  | Ok (Present by_ at_) => Some (Present by_ at_)
  | _ => prev
  end.

Section Search_strings.
Context {js : Js.Strings}.

(** [handleSearch(code)], with the answers of the two calls it may make;
    it returns the calls made, in order. *)
Definition handleSearch
    (code : string)
    (searchApi : string → Answer (option PaperRoll))
    (statusApi : string → Answer CheckStatus)
    (v : View) : View * list ApiCall :=
  let normalizedCode := Js.toLowerCase (Js.trim code) in
  match dataCache v !! normalizedCode with
  | Some cachedResult =>
      ({| foundItem := Some cachedResult;
          searchError := false;
          checkStatus := statusSeen None (statusApi normalizedCode);
          isLoadingSearch := isLoadingSearch v;
          dataCache := dataCache v;
          notices := notices v |},
       [CheckSkuInKiemKe normalizedCode])
  | None =>
      match searchApi code with
      | Ok (Some result) =>
          ({| foundItem := Some result;
              searchError := false;
              checkStatus := statusSeen None (statusApi normalizedCode);
              isLoadingSearch := false;
              dataCache := Cache.updateCache result (dataCache v);
              notices := notices v |},
           [SearchPaperBySku code; CheckSkuInKiemKe normalizedCode])
      | Ok None =>
          ({| foundItem := None;
              searchError := true;
              checkStatus := None;
              isLoadingSearch := false;
              dataCache := dataCache v;
              notices := (notices v ++ [NotFound code])%list |},
           [SearchPaperBySku code])
      | Failed message =>
          ({| foundItem := None;
              searchError := true;
              checkStatus := None;
              isLoadingSearch := false;
              dataCache := dataCache v;
              notices :=
                (notices v ++
                 [ApiError (if Js.truthy message then message
                            else "Kiem tra Deployment")])%list |},
           [SearchPaperBySku code])
      end
  end.

(** The [api] object in front of a backend whose answers arrive. *)
Definition searchBackend (files : Files) (code : string) : Answer (option PaperRoll) :=
  Ok (searchPaperBySku (Some code) files).

Definition statusBackend (files : Files) (code : string) : Answer CheckStatus :=
  Ok (checkSkuInKiemKe (Some code) None None files).

(** [keyof PaperRoll]. *)
Inductive Field :=
| Fsku | Fpurpose | FpackageId | Ftype | Fgsm | Fsupplier | Fmanufacturer
| FimportDate | FprodDate | FlengthCm | FwidthCm | Fweight | Fquantity
| FcustomerOrder | FmaterialCode | Flocation | FpendingOut | Fimporter
| FupdatedAt.

(** [{ ...current, [field]: value }]. *)
Definition setField (field : Field) (value : string) (r : PaperRoll) : PaperRoll := {|
  sku := match field with Fsku => value | _ => sku r end;
  purpose := match field with Fpurpose => value | _ => purpose r end;
  packageId := match field with FpackageId => value | _ => packageId r end;
  type := match field with Ftype => value | _ => type r end;
  gsm := match field with Fgsm => value | _ => gsm r end;
  supplier := match field with Fsupplier => value | _ => supplier r end;
  manufacturer := match field with Fmanufacturer => value | _ => manufacturer r end;
  importDate := match field with FimportDate => value | _ => importDate r end;
  prodDate := match field with FprodDate => value | _ => prodDate r end;
  lengthCm := match field with FlengthCm => value | _ => lengthCm r end;
  widthCm := match field with FwidthCm => value | _ => widthCm r end;
  weight := match field with Fweight => value | _ => weight r end;
  quantity := match field with Fquantity => value | _ => quantity r end;
  customerOrder := match field with FcustomerOrder => value | _ => customerOrder r end;
  materialCode := match field with FmaterialCode => value | _ => materialCode r end;
  location := match field with Flocation => value | _ => location r end;
  pendingOut := match field with FpendingOut => value | _ => pendingOut r end;
  importer := match field with Fimporter => value | _ => importer r end;
  updatedAt := match field with FupdatedAt => value | _ => updatedAt r end
|}.

(** [handleUpdateItem(field, value)]. *)
Definition handleUpdateItem (field : Field) (value : string) (v : View) : View :=
  match foundItem v with
  | None => v
  | Some current =>
      let updatedItem := setField field value current in
      {| foundItem := Some updatedItem;
         searchError := searchError v;
         checkStatus := checkStatus v;
         isLoadingSearch := isLoadingSearch v;
         dataCache := Cache.updateCache updatedItem (dataCache v);
         notices := notices v |}
  end.

End Search_strings.

End Search.

(** ** The notification list ([App.tsx]) *)

Module Toast.

(** [interface Notification], with the text kept abstract. *)
Record Notification (M : Type) := {
  id : string;
  message : M
}.
Arguments id {M} _.
Arguments message {M} _.

(** [showNotification]: the id is [Date.now().toString()]. *)
Definition showNotification {M} (now : Z) (m : M) (prev : list (Notification M))
  : list (Notification M) :=
  (prev ++ [{| id := Js.decimal now; message := m |}])%list.

(** [removeNotification(id)], also the body of the timeout set by
    [showNotification]: [filter(n => n.id !== id)]. *)
Definition removeNotification {M} (i : string) (prev : list (Notification M))
  : list (Notification M) :=
  List.filter (fun n => negb (String.eqb (id n) i)) prev.

End Toast.

(** ** Further vocabulary of the engine *)

Module SyncMore.
Import Sync.

Section SyncMore_strings.
Context {js : Js.Strings}.

(** Nothing is suspended, and a queue with work has its timer pending. *)
Definition idle (s : State) : Prop :=
  Inv s ∧ inflight s = [] ∧ (offlineQueue s ≠ [] → timer s ≠ None).

(** [Dashboard.tsx]:
    [itemsDone = sessionTotal > 0 ? (sessionTotal - queueLength) : 0],
    with the props [sessionTotal] and [queueLength = offlineQueue.length]. *)
Definition itemsDone (sessionTotal queueLength : Z) : Z :=
  if (0 <? sessionTotal)%Z then (sessionTotal - queueLength)%Z else 0%Z.

Definition itemsDoneOf (s : State) : Z :=
  itemsDone (Z.of_nat (sessionTotal s)) (Z.of_nat (length (offlineQueue s))).

(** The ids of the persisted queue are texts that are not empty. *)
Definition idsPresent (queue : list QueueItem) : Prop :=
  Forall (fun q => id q ≠ EmptyString) queue.

(** A call holds between one and [BATCH_SIZE] items. *)
Definition callSized (c : list BatchItem) : Prop :=
  (1 ≤ length c ≤ BATCH_SIZE)%nat.

End SyncMore_strings.

End SyncMore.

(** ** Sample data

    The samples are ASCII text; they are run with the two string
    functions on ASCII text. *)

#[global] Existing Instance Js.ascii.

Module Samples.
Import Sync.

Definition roll (sku packageId : string) : PaperRoll := {|
  sku := sku;
  purpose := "In";
  packageId := packageId;
  type := "Kraft";
  gsm := "120";
  supplier := "NCC";
  manufacturer := "NSX";
  importDate := "01/10/2026";
  prodDate := "15/09/2026";
  lengthCm := "6000";
  widthCm := "120";
  weight := "850";
  quantity := "1";
  customerOrder := "DH-7";
  materialCode := "VT-3";
  location := "A-01";
  pendingOut := EmptyString;
  importer := EmptyString;
  updatedAt := EmptyString
|}.

Definition clean : PaperRoll := roll "A1" "PKG-1".


Definition confirmAt (now : Z) : Confirmation := {|
  itemToSave := Some clean;
  currentUser := Some "an";
  formattedTime := "03/11/2026 08:00:00";
  nowId := now;
  nowTimestamp := now
|}.

Definition twelve : list Confirmation :=
  confirmAt <$> [1001; 1002; 1003; 1004; 1005; 1006;
                 1007; 1008; 1009; 1010; 1011; 1012]%Z.

(** Seven confirmations on a fresh start, and the dispatch launched then. *)
Definition queued7 : State := run (Confirm <$> take 7 twelve) (boot []).
Definition launched7 : State := step (TimerFire true) queued7.

(** The same queue after three failed turns of the loop. *)
Definition backedOff : State :=
  Nat.iter 3 (dispatchCycle (Rejected "timeout")) queued7.

(** The same queue with the interval driven to its ceiling by five
    failed turns. *)
Definition atCeiling : State :=
  Nat.iter 5 (dispatchCycle (Rejected "timeout")) queued7.

(** The files of the backend: the stock sheet, the sheet of users and
    a sheet of results holding its header. *)
Definition stock : Server.Sheet :=
  [ ["SKU"; "Muc Dich"; "Kien Giay"];
    ["A1"; "In"; "PKG-1"; "Kraft"; "120"];
    ["B2"; "In"; "PKG-2"; "Duplex"; "250"] ].

Definition users : Server.Sheet :=
  [ ["User"; "Pass"]; ["an"; "s3cret"]; ["Binh"; "Pw-2"] ].

Definition office : Backend.Files :=
  {[ Backend.SOURCE_SHEET_ID := {[ "KHO" := stock ]};
     Backend.TARGET_SHEET_ID := {[ "DN" := users; "KIEMKE" := [Server.header] ]} ]}.

(** The same with a row of users whose first two cells are blank. *)
Definition officeWithGap : Backend.Files :=
  {[ Backend.TARGET_SHEET_ID :=
       {[ "DN" := (users ++ [["  "; EmptyString; "note"]])%list ]} ]}.

Definition batch2 : list BatchItem :=
  [ {| payload := clean; _clientQueueId := Some "q-1001" |};
    {| payload := clean; _clientQueueId := Some "q-1002" |} ].

End Samples.

(** * Properties *)

(** ** Rendering and effects *)

Module SyncFacts.
Import Sync.

Ltac effects_cases prev cur :=
  unfold effects, resetEffect, triggerEffect;
  destruct (bool_decide (length (offlineQueue prev) = length (offlineQueue cur)));
  destruct (bool_decide (offlineQueue prev = offlineQueue cur
                         ∧ syncIntervalMs prev = syncIntervalMs cur));
  destruct cur as [[|? ?] ? ? ? ? ? ? ? ? ?]; simpl.

Section SyncFacts_strings.
Context {js : Js.Strings}.

(** The effects write the progress counters, the interval and the timer
    only. *)
Lemma effects_frame prev cur :
  offlineQueue (effects prev cur) = offlineQueue cur
  ∧ inflight (effects prev cur) = inflight cur
  ∧ calls (effects prev cur) = calls cur
  ∧ notifications (effects prev cur) = notifications cur
  ∧ isSyncingRef (effects prev cur) = isSyncingRef cur
  ∧ dataCache (effects prev cur) = dataCache cur.
Proof. effects_cases prev cur; repeat split. Qed.

Lemma commit_frame prev cur :
  offlineQueue (commit prev cur) = offlineQueue cur
  ∧ inflight (commit prev cur) = inflight cur
  ∧ calls (commit prev cur) = calls cur
  ∧ notifications (commit prev cur) = notifications cur
  ∧ isSyncingRef (commit prev cur) = isSyncingRef cur
  ∧ dataCache (commit prev cur) = dataCache cur.
Proof.
  unfold commit.
  destruct (effects_frame cur (effects prev cur)) as (-> & -> & -> & -> & -> & ->).
  apply effects_frame.
Qed.

Lemma commit_offlineQueue prev cur :
  offlineQueue (commit prev cur) = offlineQueue cur.
Proof. apply commit_frame. Qed.

Lemma commit_inflight prev cur : inflight (commit prev cur) = inflight cur.
Proof. apply commit_frame. Qed.

Lemma commit_calls prev cur : calls (commit prev cur) = calls cur.
Proof. apply commit_frame. Qed.

Lemma commit_notifications prev cur :
  notifications (commit prev cur) = notifications cur.
Proof. apply commit_frame. Qed.

Lemma commit_isSyncingRef prev cur :
  isSyncingRef (commit prev cur) = isSyncingRef cur.
Proof. apply commit_frame. Qed.

Lemma commit_dataCache prev cur : dataCache (commit prev cur) = dataCache cur.
Proof. apply commit_frame. Qed.

(** What one round of effects leaves in the cells it writes. *)
Lemma effects_written prev cur :
  sessionTotal (effects prev cur) =
    (if bool_decide (length (offlineQueue prev) = length (offlineQueue cur))
     then sessionTotal cur
     else if bool_decide (offlineQueue cur = []) then 0 else sessionTotal cur)
  ∧ isSyncing (effects prev cur) =
    (if bool_decide (length (offlineQueue prev) = length (offlineQueue cur))
     then isSyncing cur
     else if bool_decide (offlineQueue cur = []) then false else isSyncing cur)
  ∧ syncIntervalMs (effects prev cur) =
    (if retrigger prev cur && bool_decide (offlineQueue cur = [])
     then 10000%Z else syncIntervalMs cur)
  ∧ timer (effects prev cur) =
    (if retrigger prev cur
     then if bool_decide (offlineQueue cur = []) then None
          else Some (syncIntervalMs cur)
     else timer cur).
Proof.
  unfold retrigger. effects_cases prev cur; repeat split;
    try case_bool_decide; congruence.
Qed.

(** After the second render nothing is left to do: a handler's commit is
    described by the dependencies it changed. *)
Lemma commit_written prev cur :
  sessionTotal (commit prev cur) =
    (if bool_decide (length (offlineQueue prev) = length (offlineQueue cur))
     then sessionTotal cur
     else if bool_decide (offlineQueue cur = []) then 0 else sessionTotal cur)
  ∧ isSyncing (commit prev cur) =
    (if bool_decide (length (offlineQueue prev) = length (offlineQueue cur))
     then isSyncing cur
     else if bool_decide (offlineQueue cur = []) then false else isSyncing cur)
  ∧ syncIntervalMs (commit prev cur) =
    (if retrigger prev cur && bool_decide (offlineQueue cur = [])
     then 10000%Z else syncIntervalMs cur)
  ∧ timer (commit prev cur) =
    (if retrigger prev cur
     then if bool_decide (offlineQueue cur = []) then None
          else Some (syncIntervalMs cur)
     else timer cur).
Proof.
  unfold commit.
  destruct (effects_written cur (effects prev cur)) as (-> & -> & -> & ->).
  destruct (effects_frame prev cur) as (Hq & _).
  destruct (effects_written prev cur) as (Ht & Hs & Hi & Hm).
  unfold retrigger in *. rewrite Hq, Ht, Hs, Hi, Hm.
  repeat split; repeat (case_bool_decide; simpl in * ); try reflexivity;
    try (exfalso; intuition congruence).
Qed.

Lemma commit_stable prev cur :
  effects (commit prev cur) (commit prev cur) = commit prev cur.
Proof.
  unfold effects.
  rewrite (bool_decide_eq_true_2 (_ ∧ _)) by (split; reflexivity).
  rewrite bool_decide_eq_true_2 by reflexivity.
  reflexivity.
Qed.

End SyncFacts_strings.

End SyncFacts.

(** ** The invariant of a session *)

Module SyncInv.
Import Sync SyncFacts.

Section SyncInv_strings.
Context {js : Js.Strings}.

(** What a handler must leave for the next commit to restore [Inv]. *)
Lemma commit_Inv prev cur :
  match inflight cur with
  | [] => isSyncingRef cur = false ∧ isSyncing cur = false
  | [d] => isSyncingRef cur = true ∧ isSyncing cur = true
           ∧ batch d ≠ [] ∧ batch d `prefix_of` offlineQueue cur
           ∧ (length (batch d) ≤ BATCH_SIZE)%nat
           ∧ batchItems d = toBatchItem <$> batch d
  | _ => False
  end →
  (length (offlineQueue cur) ≤ sessionTotal cur)%nat →
  (100 ≤ syncIntervalMs cur ≤ 300000)%Z →
  (retrigger prev cur = false →
   (∀ i, timer cur = Some i → i = syncIntervalMs cur ∧ offlineQueue cur ≠ [])
   ∧ (offlineQueue cur = [] → syncIntervalMs cur = 10000%Z ∧ timer cur = None)) →
  (length (offlineQueue prev) = length (offlineQueue cur) →
   offlineQueue cur = [] → sessionTotal cur = 0) →
  Inv (commit prev cur).
Proof.
  intros Hf Ht Hi Hm He.
  destruct (commit_frame prev cur) as (Eq & Efl & _ & _ & Er & _).
  destruct (commit_written prev cur) as (Et & Es & Ei & Em).
  constructor; rewrite ?Eq, ?Efl, ?Er, ?Et, ?Es, ?Ei, ?Em.
  - destruct (inflight cur) as [|d [|? ?]]; [| |done].
    + destruct Hf as [-> Hs]. split; [done|].
      rewrite Hs. by repeat case_bool_decide.
    + destruct Hf as (-> & Hs & Hb & Hp & Hl & Hbi).
      repeat split; try done.
      rewrite Hs. repeat case_bool_decide; try done.
      match goal with H : offlineQueue cur = [] |- _ => rewrite H in Hp end.
      apply prefix_nil_inv in Hp. done.
  - repeat case_bool_decide; try lia.
    match goal with H : offlineQueue cur = [] |- _ => rewrite H end.
    simpl. lia.
  - intros Hq. rewrite !(bool_decide_eq_true_2 _ Hq).
    rewrite andb_true_r.
    destruct (retrigger prev cur) eqn:Hr; simpl.
    + split; [|done].
      destruct (bool_decide_reflect
                  (length (offlineQueue prev) = length (offlineQueue cur)));
        [by apply He | done].
    + destruct (Hm eq_refl) as [_ Hm2]. destruct (Hm2 Hq) as [-> ->].
      split; [|done].
      destruct (bool_decide_reflect
                  (length (offlineQueue prev) = length (offlineQueue cur)));
        [by apply He | done].
  - destruct (retrigger prev cur && bool_decide (offlineQueue cur = [])); lia.
  - intros i. destruct (retrigger prev cur) eqn:Hr.
    + case_bool_decide as Hq; [done|]. simpl. intros [= <-]. done.
    + simpl. apply Hm. done.
Qed.

Lemma retrigger_same s : retrigger s s = false.
Proof. unfold retrigger. by rewrite bool_decide_eq_true_2. Qed.

Lemma retrigger_false prev cur :
  retrigger prev cur = false →
  offlineQueue prev = offlineQueue cur ∧ syncIntervalMs prev = syncIntervalMs cur.
Proof.
  unfold retrigger. intros H. apply negb_false_iff in H.
  by apply bool_decide_eq_true in H.
Qed.

Lemma snoc_length_neq {A} (l : list A) x : length l ≠ length (l ++ [x]).
Proof. rewrite length_app. simpl. lia. Qed.

Lemma drop_length_neq {A} (l : list A) k :
  (0 < k)%nat → l ≠ [] → length l ≠ length (drop k l).
Proof. intros Hk Hl. rewrite length_drop. destruct l; [done|]. simpl. lia. Qed.

Lemma Inv_same s : Inv s → Inv (commit s s).
Proof.
  intros [Hf Ht He Hi Hm]. apply commit_Inv; try done.
  - intros _. split; [done|]. intros Hq. by destruct (He Hq) as (_ & ? & ?).
  - intros _ Hq. by destruct (He Hq).
Qed.

Lemma Inv_quiet s : Inv s → isSyncingRef s = false → inflight s = [].
Proof.
  intros [Hf _ _ _ _] Hr. destruct (inflight s) as [|d [|? ?]]; [done| |done].
  destruct Hf as [Hf _]. congruence.
Qed.

Lemma Inv_flying s d rest :
  Inv s → inflight s = d :: rest →
  rest = [] ∧ batch d ≠ [] ∧ batch d `prefix_of` offlineQueue s
  ∧ (length (batch d) ≤ BATCH_SIZE)%nat ∧ offlineQueue s ≠ [].
Proof.
  intros [Hf _ _ _ _] Hfl. rewrite Hfl in Hf. destruct rest; [|done].
  destruct Hf as (_ & _ & Hb & Hp & Hl & _). repeat split; try done.
  intros Hq. rewrite Hq in Hp. by apply prefix_nil_inv in Hp.
Qed.

(** Every handler, followed by its commit, keeps the invariant. *)
Lemma step_Inv e s : Inv s → Inv (step e s).
Proof.
  intros HI. pose proof HI as [Hf Ht He Hi Hm]. unfold step.
  destruct e as [c | onLine | o | | onLine]; simpl.
  - (* Confirm *)
    unfold handleConfirmCheck.
    destruct (itemToSave c) as [item|]; [|by apply Inv_same].
    destruct (currentUser c) as [user|]; [|by apply Inv_same].
    apply commit_Inv; simpl.
    + destruct (inflight s) as [|d [|? ?]]; [done| |done].
      destruct Hf as (? & ? & ? & ? & ? & ?).
      repeat split; try done. by apply prefix_app_r.
    + rewrite length_app. simpl. lia.
    + done.
    + intros Hr. apply retrigger_false in Hr as [Hq _]. simpl in Hq.
      apply (f_equal length) in Hq. by apply snoc_length_neq in Hq.
    + intros Hq. by apply snoc_length_neq in Hq.
  - (* TimerFire *)
    destruct (timer s) as [i|] eqn:Htm; [|by apply Inv_same].
    unfold processSyncQueue. simpl.
    destruct (offlineQueue s) as [|q0 q] eqn:Hq; simpl.
    { apply commit_Inv; simpl; rewrite ?Hq; try done.
      - intros _. split; [done|]. intros _. by destruct (He eq_refl) as (_ & ? & _).
      - intros _ _. by destruct (He eq_refl). }
    destruct (isSyncingRef s) eqn:Hr; simpl.
    { apply commit_Inv; simpl; rewrite ?Hq, ?Hr; try done. }
    destruct onLine; simpl.
    + apply commit_Inv; simpl; rewrite ?Hq; try done.
      * rewrite (Inv_quiet s HI Hr). simpl.
        repeat split; try done.
        -- apply (prefix_take (q0 :: q) BATCH_SIZE).
        -- change (q0 :: take 4 q) with (take BATCH_SIZE (q0 :: q)).
           rewrite length_take. unfold BATCH_SIZE. lia.
    + apply commit_Inv; simpl; rewrite ?Hq, ?Hr; try done.
  - (* Settle *)
    unfold settle. destruct (inflight s) as [|d rest] eqn:Hfl; [by apply Inv_same|].
    destruct (Inv_flying s d rest HI Hfl) as (-> & Hb & Hp & Hl & Hne).
    destruct o as [|msg]; simpl.
    + apply commit_Inv; simpl; try done.
      * rewrite length_drop. lia.
      * intros Hr. apply retrigger_false in Hr as [Hq _]. simpl in Hq.
        apply (f_equal length) in Hq. apply drop_length_neq in Hq; [done| |done].
        destruct (batch d); [done|simpl; lia].
      * intros Hq. apply drop_length_neq in Hq; [done| |done].
        destruct (batch d); [done|simpl; lia].
    + destruct (60000 <? seenIntervalMs d)%Z; simpl;
        apply commit_Inv; simpl; try done; try lia;
        try (intros _ Hq; by destruct (He Hq));
        (intros Hr; apply retrigger_false in Hr as [_ Hq]; simpl in Hq;
         rewrite <- Hq; split; [done | intros; done]).
  - (* Online *)
    unfold handleOnline.
    destruct (offlineQueue s) as [|q0 q] eqn:Hq; simpl.
    { by apply Inv_same. }
    apply commit_Inv; simpl; rewrite ?Hq; try done.
    intros Hr. apply retrigger_false in Hr as [_ Hr]. simpl in Hr.
    rewrite <- Hr. split; [|done]. intros i Hi'. by destruct (Hm i Hi').
  - (* ManualSync *)
    unfold handleManualSync. destruct onLine; simpl.
    + destruct (offlineQueue s) as [|q0 q] eqn:Hq; simpl.
      * apply commit_Inv; simpl; rewrite ?Hq; try done.
        -- intros _. split; [|by intros _; destruct (He eq_refl) as (_ & ? & ?)].
           intros i Hi'. by destruct (Hm i Hi').
        -- intros _ _. by destruct (He eq_refl).
      * apply commit_Inv; simpl; rewrite ?Hq; try done.
        intros Hr. apply retrigger_false in Hr as [_ Hr]. simpl in Hr.
        rewrite <- Hr. split; [|done]. intros i Hi'. by destruct (Hm i Hi').
    + apply commit_Inv; simpl; try done.
      -- intros _. split; [done|]. intros Hq. by destruct (He Hq) as (_ & ? & ?).
      -- intros _ Hq. by destruct (He Hq).
Qed.

Lemma boot_Inv queue : Inv (boot queue).
Proof.
  unfold boot. apply commit_Inv; simpl; try done.
  - destruct queue; simpl; lia.
  - intros _ ->. done.
Qed.

Lemma run_Inv es s : Inv s → Inv (run es s).
Proof.
  revert s. induction es as [|e es IH]; intros s HI; [done|].
  simpl. apply IH. by apply step_Inv.
Qed.

Lemma reachable_Inv s : reachable s → Inv s.
Proof. intros (queue & es & ->). apply run_Inv, boot_Inv. Qed.

Lemma reachable_step e s : reachable s → reachable (step e s).
Proof.
  intros (queue & es & ->). exists queue, (es ++ [e])%list.
  unfold run. by rewrite foldl_app.
Qed.

End SyncInv_strings.

End SyncInv.
(** ** The handlers, one step at a time *)

Module SyncSteps.
Import Sync SyncFacts SyncInv.

Section SyncSteps_strings.
Context {js : Js.Strings}.

Lemma retrigger_queue_same prev cur :
  offlineQueue prev = offlineQueue cur →
  retrigger prev cur = negb (bool_decide (syncIntervalMs prev = syncIntervalMs cur)).
Proof.
  intros Hq. unfold retrigger. f_equal.
  apply bool_decide_ext. intuition.
Qed.

Lemma retrigger_queue_changed prev cur :
  length (offlineQueue prev) ≠ length (offlineQueue cur) → retrigger prev cur = true.
Proof.
  intros Hq. unfold retrigger. rewrite bool_decide_eq_false_2; [done|].
  intros [Hq' _]. by rewrite Hq' in Hq.
Qed.

(** The timer fires on an armed state and the device is on line: the
    dispatch is launched. *)
Lemma step_launch s :
  armed s →
  let d := {| batch := take BATCH_SIZE (offlineQueue s);
              batchItems := toBatchItem <$> take BATCH_SIZE (offlineQueue s);
              seenIntervalMs := syncIntervalMs s |} in
  let s1 := step (TimerFire true) s in
  offlineQueue s1 = offlineQueue s
  ∧ inflight s1 = [d]
  ∧ calls s1 = (calls s ++ [batchItems d])%list
  ∧ notifications s1 = notifications s
  ∧ syncIntervalMs s1 = syncIntervalMs s
  ∧ sessionTotal s1 = sessionTotal s
  ∧ dataCache s1 = dataCache s
  ∧ timer s1 = None.
Proof.
  intros (HI & Hfl & Hq & Htm). simpl.
  assert (Hr : isSyncingRef s = false).
  { destruct HI as [Hf _ _ _ _]. rewrite Hfl in Hf. apply Hf. }
  assert (Hh : handle (TimerFire true) s =
    {| offlineQueue := offlineQueue s; sessionTotal := sessionTotal s;
       isSyncing := true; syncIntervalMs := syncIntervalMs s;
       isSyncingRef := true; dataCache := dataCache s;
       notifications := notifications s; timer := None;
       inflight := [{| batch := take BATCH_SIZE (offlineQueue s);
                       batchItems := toBatchItem <$> take BATCH_SIZE (offlineQueue s);
                       seenIntervalMs := syncIntervalMs s |}];
       calls := (calls s ++ [toBatchItem <$> take BATCH_SIZE (offlineQueue s)])%list |}).
  { simpl. destruct (timer s); [|done]. unfold processSyncQueue. simpl.
    rewrite Hr, Hfl. destruct (offlineQueue s); [done|]. reflexivity. }
  unfold step. rewrite Hh.
  match goal with |- context [commit s ?c] =>
    destruct (commit_frame s c) as (-> & -> & -> & -> & _ & ->);
    destruct (commit_written s c) as (-> & _ & -> & ->);
    rewrite (retrigger_queue_same s c) by reflexivity
  end. simpl.
  rewrite !bool_decide_eq_true_2 by reflexivity. simpl.
  repeat split; try reflexivity. by rewrite bool_decide_eq_true_2.
Qed.

(** The suspended dispatch settles with success. *)
Lemma step_resolved s d :
  Inv s → inflight s = [d] →
  let rest := drop (length (batch d)) (offlineQueue s) in
  let s1 := step (Settle Resolved) s in
  offlineQueue s1 = rest
  ∧ inflight s1 = []
  ∧ calls s1 = calls s
  ∧ notifications s1 =
      (notifications s ++
       [{| message := SavedBatch (length (batch d)); severity := success |}])%list
  ∧ syncIntervalMs s1 = (if bool_decide (rest = []) then 10000%Z else 1000%Z)
  ∧ sessionTotal s1 = (if bool_decide (rest = []) then 0 else sessionTotal s)
  ∧ dataCache s1 = dataCache s
  ∧ timer s1 = (if bool_decide (rest = []) then None else Some 1000%Z).
Proof.
  intros HI Hfl. simpl.
  destruct (Inv_flying s d [] HI Hfl) as (_ & Hb & Hp & Hl & Hne).
  unfold step. simpl. unfold settle. rewrite Hfl. simpl.
  match goal with |- context [commit s ?c] =>
    destruct (commit_frame s c) as (-> & -> & -> & -> & _ & ->);
    destruct (commit_written s c) as (-> & _ & -> & ->);
    rewrite (retrigger_queue_changed s c)
  end; simpl.
  - rewrite (bool_decide_eq_false_2 (length _ = length _)).
    + repeat split; reflexivity.
    + apply drop_length_neq; [|done]. destruct (batch d); [done|simpl; lia].
  - apply drop_length_neq; [|done]. destruct (batch d); [done|simpl; lia].
Qed.

(** The suspended dispatch settles with a failure. *)
Lemma step_rejected s d msg :
  Inv s → inflight s = [d] →
  let next := Z.min (syncIntervalMs s * 2) 300000 in
  let s1 := step (Settle (Rejected msg)) s in
  offlineQueue s1 = offlineQueue s
  ∧ inflight s1 = []
  ∧ calls s1 = calls s
  ∧ notifications s1 =
      (notifications s ++
       if (60000 <? seenIntervalMs d)%Z
       then [{| message := SyncError (errorText msg); severity := error |}]
       else [])%list
  ∧ syncIntervalMs s1 = next
  ∧ sessionTotal s1 = sessionTotal s
  ∧ dataCache s1 = dataCache s
  ∧ isSyncingRef s1 = false
  ∧ isSyncing s1 = false
  ∧ timer s1 = (if bool_decide (syncIntervalMs s = next) then timer s else Some next).
Proof.
  intros HI Hfl. simpl.
  destruct (Inv_flying s d [] HI Hfl) as (_ & Hb & Hp & Hl & Hne).
  unfold step. simpl. unfold settle. rewrite Hfl. simpl.
  match goal with |- context [commit s ?c] =>
    destruct (commit_frame s c) as (-> & -> & -> & -> & -> & ->);
    destruct (commit_written s c) as (-> & -> & -> & ->);
    rewrite (retrigger_queue_same s c)
  end.
  - destruct (60000 <? seenIntervalMs d)%Z; simpl;
      rewrite (bool_decide_eq_true_2 (length _ = length _)) by reflexivity;
      rewrite (bool_decide_eq_false_2 (offlineQueue s = [])) by done;
      rewrite andb_false_r, ?app_nil_r;
      repeat split; try reflexivity;
      by case_bool_decide.
  - by destruct (60000 <? seenIntervalMs d)%Z.
Qed.

Lemma effects_same s : effects s s = s.
Proof.
  unfold effects.
  rewrite (bool_decide_eq_true_2 (_ ∧ _)) by (split; reflexivity).
  by rewrite bool_decide_eq_true_2.
Qed.

Lemma commit_same s : commit s s = s.
Proof. unfold commit. by rewrite !effects_same. Qed.

(** A confirmation by a signed-in user with a record in hand. *)
Lemma step_confirm s c item user :
  itemToSave c = Some item → currentUser c = Some user →
  let final := finalData item user (formattedTime c) in
  let s1 := step (Confirm c) s in
  offlineQueue s1 =
    (offlineQueue s ++ [newQueueItem final (nowId c) (nowTimestamp c)])%list
  ∧ inflight s1 = inflight s
  ∧ calls s1 = calls s
  ∧ sessionTotal s1 = sessionTotal s + 1
  ∧ syncIntervalMs s1 = syncIntervalMs s
  ∧ dataCache s1 = Cache.updateCache final (dataCache s)
  ∧ isSyncingRef s1 = isSyncingRef s
  ∧ timer s1 = Some (syncIntervalMs s).
Proof.
  intros Hi Hu. simpl. unfold step. simpl. unfold handleConfirmCheck.
  rewrite Hi, Hu.
  match goal with |- context [commit s ?c] =>
    destruct (commit_frame s c) as (-> & -> & -> & _ & -> & ->);
    destruct (commit_written s c) as (-> & _ & -> & ->);
    rewrite (retrigger_queue_changed s c) by apply snoc_length_neq
  end. simpl.
  rewrite (bool_decide_eq_false_2 (length _ = length _)) by apply snoc_length_neq.
  rewrite (bool_decide_eq_false_2 (_ = [])) by (by destruct (offlineQueue s)).
  repeat split; reflexivity.
Qed.

(** While a dispatch is suspended, every event other than its settlement
    leaves it suspended, issues no call, and only appends to the queue. *)
Lemma step_in_flight e s d :
  Inv s → inflight s = [d] → isSettle e = false →
  inflight (step e s) = [d]
  ∧ calls (step e s) = calls s
  ∧ offlineQueue (step e s) = (offlineQueue s ++ enqueuedBy e)%list.
Proof.
  intros HI Hfl He.
  assert (Hr : isSyncingRef s = true).
  { destruct HI as [Hf _ _ _ _]. rewrite Hfl in Hf. apply Hf. }
  unfold step.
  destruct (commit_frame s (handle e s)) as (-> & -> & -> & _).
  destruct e as [c | onLine | o | | onLine]; simpl in *; try done.
  - unfold handleConfirmCheck.
    destruct (itemToSave c), (currentUser c); simpl; by rewrite ?app_nil_r.
  - rewrite app_nil_r. destruct (timer s); [|done].
    unfold processSyncQueue. simpl. rewrite Hr, orb_true_r. done.
  - rewrite app_nil_r. unfold handleOnline. by destruct (0 <? _)%nat.
  - rewrite app_nil_r. unfold handleManualSync.
    destruct onLine; simpl; [|done]. by destruct (_ =? 0)%nat.
Qed.

Lemma run_in_flight es s d :
  Inv s → inflight s = [d] → forallb (fun e => negb (isSettle e)) es = true →
  inflight (run es s) = [d]
  ∧ calls (run es s) = calls s
  ∧ offlineQueue (run es s) = (offlineQueue s ++ concat (enqueuedBy <$> es))%list.
Proof.
  revert s. induction es as [|e es IH]; intros s HI Hfl Hes; simpl in *.
  - by rewrite app_nil_r.
  - apply andb_true_iff in Hes as [He Hes]. apply negb_true_iff in He.
    destruct (step_in_flight e s d HI Hfl He) as (Hfl' & Hc & Hq).
    destruct (IH (step e s) (step_Inv e s HI) Hfl' Hes) as (-> & -> & ->).
    rewrite Hc, Hq, <- app_assoc. done.
Qed.

End SyncSteps_strings.

End SyncSteps.
(** ** Turns of the trigger loop *)

Module SyncCycles.
Import Sync SyncFacts SyncInv SyncSteps.

Section SyncCycles_strings.
Context {js : Js.Strings}.

Lemma drop_length_take {A} (l : list A) k : drop (length (take k l)) l = drop k l.
Proof.
  rewrite length_take. destruct (decide (k ≤ length l)%nat).
  - by rewrite Nat.min_l.
  - rewrite Nat.min_r by lia. rewrite !drop_ge; [done | lia | lia].
Qed.

Lemma armed_launched s :
  armed s →
  Inv (step (TimerFire true) s)
  ∧ inflight (step (TimerFire true) s) =
      [{| batch := take BATCH_SIZE (offlineQueue s);
          batchItems := toBatchItem <$> take BATCH_SIZE (offlineQueue s);
          seenIntervalMs := syncIntervalMs s |}].
Proof.
  intros Ha. split; [apply step_Inv, Ha|]. apply (step_launch s Ha).
Qed.

(** A turn of the loop that succeeds. *)
Lemma cycle_resolved s :
  armed s →
  let rest := drop BATCH_SIZE (offlineQueue s) in
  let s' := dispatchCycle Resolved s in
  Inv s'
  ∧ offlineQueue s' = rest
  ∧ inflight s' = []
  ∧ calls s' = (calls s ++ [toBatchItem <$> take BATCH_SIZE (offlineQueue s)])%list
  ∧ syncIntervalMs s' = (if bool_decide (rest = []) then 10000%Z else 1000%Z)
  ∧ timer s' = (if bool_decide (rest = []) then None else Some 1000%Z).
Proof.
  intros Ha. simpl. unfold dispatchCycle.
  destruct (armed_launched s Ha) as [HI1 Hfl1].
  destruct (step_launch s Ha) as (Hq1 & _ & Hc1 & _).
  destruct (step_resolved _ _ HI1 Hfl1) as (Hq & Hfl & Hc & _ & Hi & _ & _ & Ht).
  simpl in *. rewrite Hq1, drop_length_take in *.
  split; [by apply step_Inv|]. rewrite Hq, Hfl, Hc, Hc1, Hi, Ht. done.
Qed.

(** A turn of the loop that fails. *)
Lemma cycle_rejected s msg :
  armed s →
  let next := Z.min (syncIntervalMs s * 2) 300000 in
  let s' := dispatchCycle (Rejected msg) s in
  Inv s'
  ∧ offlineQueue s' = offlineQueue s
  ∧ inflight s' = []
  ∧ calls s' = (calls s ++ [toBatchItem <$> take BATCH_SIZE (offlineQueue s)])%list
  ∧ notifications s' =
      (notifications s ++
       if (60000 <? syncIntervalMs s)%Z
       then [{| message := SyncError (errorText msg); severity := error |}]
       else [])%list
  ∧ syncIntervalMs s' = next
  ∧ sessionTotal s' = sessionTotal s
  ∧ dataCache s' = dataCache s
  ∧ isSyncingRef s' = false
  ∧ isSyncing s' = false
  ∧ timer s' = (if bool_decide (syncIntervalMs s = next) then None else Some next).
Proof.
  intros Ha. simpl. unfold dispatchCycle.
  destruct (armed_launched s Ha) as [HI1 Hfl1].
  destruct (step_launch s Ha) as (Hq1 & _ & Hc1 & Hn1 & Hi1 & Ht1 & Hd1 & Hm1).
  destruct (step_rejected _ _ msg HI1 Hfl1)
    as (Hq & Hfl & Hc & Hn & Hi & Ht & Hd & Hr & Hs & Hm).
  simpl in *. rewrite Hi1 in *.
  split; [by apply step_Inv|].
  rewrite Hq, Hfl, Hc, Hn, Hi, Ht, Hd, Hr, Hs, Hm, Hq1, Hc1, Hn1, Ht1, Hd1, Hm1.
  repeat split; done.
Qed.

(** With no timer pending and nothing suspended, a turn of the loop does
    nothing. *)
Lemma cycle_stalled s o :
  inflight s = [] → timer s = None → dispatchCycle o s = s.
Proof.
  intros Hfl Htm. unfold dispatchCycle, step. simpl. rewrite Htm.
  rewrite commit_same. unfold settle. rewrite Hfl. apply commit_same.
Qed.

Lemma step_confirmable s c :
  confirmable c → Inv s → inflight s = [] →
  armed (step (Confirm c) s)
  ∧ length (offlineQueue (step (Confirm c) s)) = S (length (offlineQueue s))
  ∧ calls (step (Confirm c) s) = calls s.
Proof.
  intros [[item Hi] [user Hu]] HI Hfl.
  destruct (step_confirm s c item user Hi Hu) as (Hq & Hfl' & Hc & _ & _ & _ & _ & Ht).
  simpl in *. unfold armed. split_and!.
  - by apply step_Inv.
  - by rewrite Hfl'.
  - rewrite Hq. by destruct (offlineQueue s).
  - by rewrite Ht.
  - rewrite Hq, length_app. simpl. lia.
  - done.
Qed.

Lemma run_cons e es s : run (e :: es) s = run es (step e s).
Proof. reflexivity. Qed.

Lemma run_confirmable cs s :
  Forall confirmable cs → Inv s → inflight s = [] →
  Inv (run (Confirm <$> cs) s)
  ∧ inflight (run (Confirm <$> cs) s) = []
  ∧ length (offlineQueue (run (Confirm <$> cs) s)) = (length cs + length (offlineQueue s))%nat
  ∧ calls (run (Confirm <$> cs) s) = calls s
  ∧ (cs ≠ [] → timer (run (Confirm <$> cs) s) ≠ None).
Proof.
  intros Hcs. revert s. induction Hcs as [|c cs Hc Hcs IH]; intros s HI Hfl.
  - done.
  - rewrite fmap_cons, run_cons. destruct (step_confirmable s c Hc HI Hfl) as ((HI' & Hfl' & Hne & Htm) & Hlen & Hcalls).
    destruct (IH _ HI' Hfl') as (HI2 & Hfl2 & Hlen2 & Hcalls2 & Htm2).
    split_and!; try done.
    + rewrite Hlen2, Hlen. simpl. lia.
    + congruence.
    + intros _. destruct cs as [|c' cs']; [done|]. by apply Htm2.
Qed.

Lemma clearTimer_idle s : timer s = None → clearTimer s = s.
Proof. destruct s. simpl. by intros ->. Qed.

(** What a blocked invocation of the trigger leaves behind. *)
Lemma step_blocked s onLine :
  Inv s → inflight s ≠ [] ∨ offlineQueue s = [] ∨ onLine = false →
  processSyncQueue onLine s = s ∧ step (TimerFire onLine) s = clearTimer s.
Proof.
  intros HI Hb.
  assert (Hg : ∀ s', offlineQueue s' = offlineQueue s →
                     isSyncingRef s' = isSyncingRef s →
                     processSyncQueue onLine s' = s').
  { intros s' Hq Hr. unfold processSyncQueue. rewrite Hq, Hr.
    destruct Hb as [Hfl | [-> | ->]].
    - destruct HI as [Hf _ _ _ _]. destruct (inflight s) as [|d [|? ?]]; try done.
      destruct Hf as [-> _]. by rewrite orb_true_r.
    - done.
    - by rewrite !orb_true_r. }
  split; [by apply Hg|].
  unfold step. simpl. destruct (timer s) eqn:Ht.
  - rewrite Hg by done.
    assert (He : effects s (clearTimer s) = clearTimer s).
    { unfold effects. simpl.
      rewrite (bool_decide_eq_true_2 (_ ∧ _)) by (split; reflexivity).
      by rewrite bool_decide_eq_true_2. }
    unfold commit. rewrite He. apply effects_same.
  - rewrite clearTimer_idle by done. apply commit_same.
Qed.

(** After a failed turn the loop is armed again, unless the interval
    already stood at its ceiling. *)
Lemma cycle_rejected_armed s msg :
  armed s →
  (armed (dispatchCycle (Rejected msg) s)
   ∨ syncIntervalMs s = 300000%Z ∧ timer (dispatchCycle (Rejected msg) s) = None)
  ∧ inflight (dispatchCycle (Rejected msg) s) = []
  ∧ syncIntervalMs (dispatchCycle (Rejected msg) s)
    = Z.min (syncIntervalMs s * 2) 300000.
Proof.
  intros Ha.
  destruct (cycle_rejected s msg Ha)
    as (HI' & Hq & Hfl & _ & _ & Hi & _ & _ & _ & _ & Ht).
  simpl in *. split_and!; try done.
  destruct Ha as (HI & _ & Hne & _). destruct HI as [_ _ _ Hr _].
  case_bool_decide as Hsame.
  - right. split; [lia | done].
  - left. unfold armed. split_and!; try done; [by rewrite Hq | by rewrite Ht].
Qed.

Lemma failures_interval n s msg :
  Inv s → inflight s = [] →
  armed s ∨ syncIntervalMs s = 300000%Z ∧ timer s = None →
  syncIntervalMs (Nat.iter n (dispatchCycle (Rejected msg)) s)
  = Z.min (2 ^ Z.of_nat n * syncIntervalMs s) 300000.
Proof.
  revert s. induction n as [|n IH]; intros s HI Hfl Hs.
  - simpl. destruct HI as [_ _ _ Hr _]. lia.
  - rewrite Nat.iter_succ_r.
    assert (Hp : (0 < 2 ^ Z.of_nat n)%Z) by (apply Z.pow_pos_nonneg; lia).
    rewrite Nat2Z.inj_succ, Z.pow_succ_r by lia.
    pose proof (inv_interval s HI) as Hr.
    destruct Hs as [Ha | [Hi Ht]].
    + destruct (cycle_rejected_armed s msg Ha) as (Hnext & Hfl' & Hi').
      rewrite IH; [ | | done | ].
      * rewrite Hi'. nia.
      * destruct (cycle_rejected s msg Ha) as (HI' & _). done.
      * destruct Hnext as [? | [? ?]]; [by left | right].
        split; [rewrite Hi'; lia | done].
    + rewrite cycle_stalled by done.
      rewrite IH by (done || by right). nia.
Qed.

Lemma errorsShown_app s l :
  List.filter (fun n => match severity n with error => true | _ => false end)
    (notifications s ++ l)%list
  = (errorsShown s ++
     List.filter (fun n => match severity n with error => true | _ => false end) l)%list.
Proof. unfold errorsShown. apply List.filter_app. Qed.

Lemma cycle_rejected_errors s msg :
  Inv s → inflight s = [] →
  (length (errorsShown s)
   ≤ length (errorsShown (dispatchCycle (Rejected msg) s)))%nat.
Proof.
  intros HI Hfl. destruct (timer s) as [i|] eqn:Ht.
  - assert (Ha : armed s).
    { unfold armed. split_and!; try done; [|by rewrite Ht].
      by destruct (inv_timer s HI i Ht). }
    destruct (cycle_rejected s msg Ha) as (_ & _ & _ & _ & Hn & _).
    unfold errorsShown at 2. simpl in Hn. rewrite Hn, errorsShown_app.
    rewrite length_app. lia.
  - by rewrite cycle_stalled.
Qed.

Lemma failures_errors n s msg :
  Inv s → inflight s = [] →
  Inv (Nat.iter n (dispatchCycle (Rejected msg)) s)
  ∧ inflight (Nat.iter n (dispatchCycle (Rejected msg)) s) = []
  ∧ (length (errorsShown s)
     ≤ length (errorsShown (Nat.iter n (dispatchCycle (Rejected msg)) s)))%nat.
Proof.
  induction n as [|n IH]; intros HI Hfl; [done|].
  destruct (IH HI Hfl) as (HI' & Hfl' & Hle). simpl.
  split_and!.
  - unfold dispatchCycle. by do 2 apply step_Inv.
  - destruct (timer (Nat.iter n (dispatchCycle (Rejected msg)) s)) as [i|] eqn:Ht.
    + assert (Ha : armed (Nat.iter n (dispatchCycle (Rejected msg)) s)).
      { unfold armed. split_and!; try done; [|by rewrite Ht].
        by destruct (inv_timer _ HI' i Ht). }
      destruct (cycle_rejected _ msg Ha) as (_ & _ & Hfl2 & _). exact Hfl2.
    + by rewrite cycle_stalled.
  - etrans; [exact Hle|]. by apply cycle_rejected_errors.
Qed.

(** Failures keep coming: within [S n] turns an error is shown, once
    [2^n] times the interval exceeds the threshold. *)
Lemma failures_notify n s msg :
  armed s → (60000 < 2 ^ Z.of_nat n * syncIntervalMs s)%Z →
  (length (errorsShown s)
   < length (errorsShown (Nat.iter (S n) (dispatchCycle (Rejected msg)) s)))%nat.
Proof.
  revert s. induction n as [|n IH]; intros s Ha Hn.
  - simpl. destruct (cycle_rejected s msg Ha) as (_ & _ & _ & _ & Hnot & _).
    simpl in Hnot. unfold errorsShown at 2. rewrite Hnot, errorsShown_app.
    rewrite (proj2 (Z.ltb_lt _ _)) by lia. simpl. rewrite length_app. simpl. lia.
  - rewrite Nat.iter_succ_r.
    destruct (cycle_rejected s msg Ha) as (HI' & Hq & Hfl & _ & Hnot & Hi & _).
    simpl in *.
    destruct (decide (60000 < syncIntervalMs s)%Z) as [Hbig|Hsmall].
    + destruct (failures_errors (S n) (dispatchCycle (Rejected msg) s) msg HI' Hfl)
        as (_ & _ & Hle).
      eapply Nat.lt_le_trans; [|exact Hle].
      unfold errorsShown at 2. rewrite Hnot, errorsShown_app.
      rewrite (proj2 (Z.ltb_lt _ _)) by lia. simpl. rewrite length_app. simpl. lia.
    + pose proof (inv_interval s (proj1 Ha)) as Hr.
      destruct (cycle_rejected_armed s msg Ha) as ([Ha' | [? _]] & _ & _); [|lia].
      eapply Nat.le_lt_trans; [apply (cycle_rejected_errors s msg); apply Ha|].
      apply IH; [done|]. rewrite Hi.
      rewrite Nat2Z.inj_succ, Z.pow_succ_r in Hn by lia. lia.
Qed.

End SyncCycles_strings.

End SyncCycles.

(** ** The backend save *)

Module ServerFacts.
Import Server.

Lemma truthy_nonempty t : Js.truthy t = true ↔ t ≠ EmptyString.
Proof. destruct t; simpl; split; done. Qed.

Lemma clientIdColumn_clientIds sheet : clientIdColumn sheet = clientIds sheet.
Proof.
  unfold clientIdColumn, clientIds, getLastRow.
  destruct sheet as [|h [|r rows]]; reflexivity.
Qed.

Lemma elem_of_existingIds sheet t :
  t ∈ existingIds sheet ↔ t ≠ EmptyString ∧ t ∈ clientIds sheet.
Proof.
  unfold existingIds. rewrite elem_of_list_to_set, clientIdColumn_clientIds.
  rewrite list_elem_of_In, List.filter_In, <- list_elem_of_In, truthy_nonempty.
  tauto.
Qed.

Lemma skipped_alreadyStored sheet item :
  skipped (existingIds sheet) item = true ↔ alreadyStored sheet item.
Proof.
  unfold skipped, alreadyStored. destruct (_clientQueueId item) as [t|]; [|done].
  rewrite andb_true_iff, bool_decide_eq_true, elem_of_existingIds, truthy_nonempty.
  tauto.
Qed.

Lemma filter_bool_Prop {A} (f : A → bool) (P : A → Prop) `{∀ x, Decision (P x)} l :
  (∀ x, f x = true ↔ P x) → List.filter f l = filter P l.
Proof.
  intros Hf. induction l as [|x l IH]; [done|]. simpl.
  rewrite filter_cons. destruct (f x) eqn:Hx.
  - rewrite decide_True by (by apply Hf). by rewrite IH.
  - rewrite decide_False; [done|]. intros HP. apply Hf in HP. congruence.
Qed.

(** The rows a save appends are those of the items not yet stored. *)
Lemma rowsToAdd_records nowStr ids (dataArray : list BatchItem) :
  rowsToAdd nowStr ids (Some <$> dataArray)
  = Some (rowOf nowStr <$> List.filter (fun item => negb (skipped ids item)) dataArray).
Proof.
  induction dataArray as [|item rest IH]; [done|].
  rewrite fmap_cons. cbn [rowsToAdd]. rewrite IH. cbn [List.filter].
  by destruct (skipped ids item).
Qed.

(** The loop throws exactly on a batch with a [null] element. *)
Lemma rowsToAdd_None nowStr ids dataArray :
  rowsToAdd nowStr ids dataArray = None ↔ None ∈ dataArray.
Proof.
  induction dataArray as [|[item|] rest IH]; simpl.
  - split; [done|]. intros H. by apply elem_of_nil in H.
  - destruct (rowsToAdd nowStr ids rest) as [rows|].
    + split; [done|]. intros H. apply elem_of_cons in H as [H|H]; [done|].
      by apply IH in H.
    + split; [|done]. intros _. right. by apply IH.
  - split; [|done]. intros _. by left.
Qed.

Lemma rowsToAdd_fresh nowStr sheet (dataArray : list BatchItem) :
  rowsToAdd nowStr (existingIds sheet) (Some <$> dataArray)
  = Some (rowOf nowStr <$> filter (fun item => ¬ alreadyStored sheet item) dataArray).
Proof.
  rewrite rowsToAdd_records. do 2 f_equal. apply filter_bool_Prop. intros item.
  rewrite negb_true_iff, <- not_true_iff_false. by rewrite skipped_alreadyStored.
Qed.

Lemma clientIds_app sheet rows :
  sheet ≠ [] →
  clientIds (sheet ++ rows)%list = (clientIds sheet ++ ((fun r : Row => nth 19 r EmptyString) <$> rows))%list.
Proof.
  intros Hne. unfold clientIds.
  rewrite drop_app_le by (destruct sheet; [done | simpl; lia]).
  apply fmap_app.
Qed.

Lemma clientId_rowOf nowStr item :
  nth 19 (rowOf nowStr item) EmptyString = default EmptyString (_clientQueueId item).
Proof. reflexivity. Qed.

(** What a granted save of a non-empty batch does. *)
Lemma save_granted nowStr (dataArray : list BatchItem) sheetName ss :
  dataArray ≠ [] →
  let sheet := sheetFor sheetName ss in
  let rows := rowOf nowStr <$> filter (fun item => ¬ alreadyStored sheet item) dataArray in
  saveBatchToKiemKeSheet true nowStr (Some <$> dataArray) sheetName ss
  = (<[targetNameOf sheetName := (sheet ++ rows)%list]> ss, Added (length rows)).
Proof.
  intros Hne. simpl. unfold saveBatchToKiemKeSheet, sheetFor.
  destruct dataArray as [|item0 rest]; [done|].
  change (length (Some <$> item0 :: rest) =? 0)%nat with false. cbv iota.
  simpl negb. cbv iota.
  set (target := targetNameOf sheetName).
  destruct (ss !! target) as [sheet|] eqn:Hs; simpl default;
    rewrite rowsToAdd_fresh;
    set (rows := rowOf nowStr <$> filter _ (item0 :: rest));
    destruct rows as [|r rows']; simpl.
  - f_equal. rewrite app_nil_r. by rewrite insert_id.
  - done.
  - done.
  - f_equal. by rewrite insert_insert_eq.
Qed.

Lemma sheetFor_nonempty sheetName ss :
  ss !! targetNameOf sheetName ≠ Some [] → sheetFor sheetName ss ≠ [].
Proof.
  unfold sheetFor. destruct (ss !! targetNameOf sheetName) as [sheet|]; simpl; [|done].
  intros Hs ->. done.
Qed.

Lemma stored_after_save nowStr sheet dataArray item :
  sheet ≠ [] → hasToken item → item ∈ dataArray →
  alreadyStored
    (sheet ++ (rowOf nowStr <$> filter (fun item => ¬ alreadyStored sheet item) dataArray))%list
    item.
Proof.
  intros Hne Htok Hin. unfold alreadyStored, hasToken in *.
  destruct (_clientQueueId item) as [t|] eqn:Hid; [|done].
  split; [done|]. rewrite clientIds_app by done. apply elem_of_app.
  destruct (decide (alreadyStored sheet item)) as [Hst|Hfresh].
  - left. unfold alreadyStored in Hst. rewrite Hid in Hst. apply Hst.
  - right. apply list_elem_of_fmap. exists (rowOf nowStr item). split.
    + rewrite clientId_rowOf, Hid. done.
    + apply list_elem_of_fmap. exists item. split; [done|].
      apply list_elem_of_filter. done.
Qed.

(** A granted save returns as [added] the number of items whose token is
    not yet in the Client ID column and appends exactly their rows, so an
    item whose token is in the column is skipped and no appended row
    carries a token of the column.  When every item carries a token and the
    sheet has at least its first row (or is created by the save, with its
    header), saving the same batch once more adds nothing and leaves the
    spreadsheet as it is. *)
Lemma save_batch_fresh_rows
    (nowStr again : string) (dataArray : list BatchItem)
    (sheetName : option string) (ss : gmap string Sheet) :
  let sheet := sheetFor sheetName ss in
  let fresh := filter (fun item => ¬ alreadyStored sheet item) dataArray in
  let saved := saveBatchToKiemKeSheet true nowStr (Some <$> dataArray) sheetName ss in
  saved.2 = Added (length fresh)
  ∧ sheetFor sheetName saved.1 = (sheet ++ (rowOf nowStr <$> fresh))%list
  ∧ (∀ item, item ∈ dataArray → alreadyStored sheet item → item ∉ fresh)
  ∧ (∀ r, r ∈ rowOf nowStr <$> fresh → nth 19 r EmptyString ≠ EmptyString → nth 19 r EmptyString ∉ clientIds sheet)
  ∧ (Forall hasToken dataArray → ss !! targetNameOf sheetName ≠ Some [] →
     saveBatchToKiemKeSheet true again (Some <$> dataArray) sheetName saved.1
     = (saved.1, Added 0)).
Proof.
  cbv zeta. destruct (decide (dataArray = [])) as [->|Hne].
  { unfold saveBatchToKiemKeSheet. simpl. rewrite app_nil_r.
    split_and!; try done; intros r Hr; by apply elem_of_nil in Hr. }
  rewrite (save_granted nowStr dataArray sheetName ss Hne). cbv zeta. simpl.
  set (sheet := sheetFor sheetName ss).
  set (fresh := filter (fun item => ¬ alreadyStored sheet item) dataArray).
  split_and!.
  - by rewrite length_fmap.
  - unfold sheetFor at 1. by rewrite lookup_insert_eq.
  - intros item _ Hst Hin. apply list_elem_of_filter in Hin as [Hn _]. done.
  - intros r Hr Ht Hin.
    apply list_elem_of_fmap in Hr as (item & -> & Hitem).
    apply list_elem_of_filter in Hitem as [Hn _]. apply Hn.
    rewrite clientId_rowOf in *. unfold alreadyStored.
    destruct (_clientQueueId item); simpl in *; done.
  - intros Htok Hhdr.
    rewrite (save_granted again dataArray sheetName _ Hne). cbv zeta.
    assert (Hs : sheetFor sheetName
                   (<[targetNameOf sheetName := (sheet ++ (rowOf nowStr <$> fresh))%list]> ss)
                 = (sheet ++ (rowOf nowStr <$> fresh))%list).
    { unfold sheetFor at 1. by rewrite lookup_insert_eq. }
    rewrite Hs.
    assert (Hnone : filter
              (fun item => ¬ alreadyStored (sheet ++ (rowOf nowStr <$> fresh))%list item)
              dataArray = []).
    { apply elem_of_nil_inv. intros item Hin.
      apply list_elem_of_filter in Hin as [Hn Hin]. apply Hn.
      apply stored_after_save; [by apply sheetFor_nonempty| |done].
      rewrite Forall_forall in Htok. by apply Htok. }
    rewrite Hnone. simpl. rewrite app_nil_r. f_equal.
    by rewrite insert_insert_eq.
Qed.

(** An item whose token is in the column is not written again. *)
Lemma save_stored_item nowStr item sheetName ss :
  alreadyStored (sheetFor sheetName ss) item →
  (saveBatchToKiemKeSheet true nowStr [Some item] sheetName ss).2 = Added 0.
Proof.
  intros Hst.
  destruct (save_batch_fresh_rows nowStr nowStr [item] sheetName ss) as (Hs & _).
  change (Some <$> [item]) with [Some item] in Hs. rewrite Hs.
  rewrite filter_cons, decide_False by (intros Hn; by apply Hn). done.
Qed.

End ServerFacts.

(** ** Queue ids *)

Module IdFacts.
Import Sync.

Lemma to_int_not_nil z : Z.to_int z ≠ Decimal.Pos Decimal.Nil ∧ Z.to_int z ≠ Decimal.Neg Decimal.Nil.
Proof.
  destruct z as [|p|p]; simpl; split; try discriminate;
    intros [= H]; by apply DecimalPos.Unsigned.to_uint_nonnil in H.
Qed.

(** Distinct clock readings print as distinct texts. *)
Lemma decimal_inj z z' : Js.decimal z = Js.decimal z' → z = z'.
Proof.
  unfold Js.decimal. intros H. apply DecimalZ.to_int_inj.
  destruct (to_int_not_nil z) as [? ?], (to_int_not_nil z') as [? ?].
  apply (f_equal NilZero.int_of_string) in H.
  rewrite !NilZero.isi in H by done. congruence.
Qed.

Lemma newQueueItem_id_inj item item' n n' t t' :
  id (newQueueItem item n t) = id (newQueueItem item' n' t') ↔ n = n'.
Proof.
  simpl. split; [|by intros ->].
  intros [= H]. by apply decimal_inj.
Qed.

End IdFacts.

(** ** The sample states *)

Module SampleFacts.
Import Sync SyncInv.

Lemma queued7_reachable : reachable Samples.queued7.
Proof. by exists [], (Confirm <$> take 7 Samples.twelve). Qed.

Lemma queued7_armed : armed Samples.queued7.
Proof.
  unfold armed. split_and!.
  - apply reachable_Inv, queued7_reachable.
  - reflexivity.
  - vm_compute. discriminate.
  - vm_compute. discriminate.
Qed.

Lemma launched7_reachable : reachable Samples.launched7.
Proof. apply reachable_step, queued7_reachable. Qed.

Lemma backedOff_armed : armed Samples.backedOff.
Proof.
  unfold armed. split_and!.
  - apply reachable_Inv. unfold Samples.backedOff, Nat.iter, dispatchCycle.
    cbn [nat_rect]. do 6 apply reachable_step. apply queued7_reachable.
  - reflexivity.
  - vm_compute. discriminate.
  - vm_compute. discriminate.
Qed.

End SampleFacts.

(** * The claims *)

Import Sync SyncFacts SyncInv SyncSteps SyncCycles Server ServerFacts IdFacts.

(** C1.  On a sheet that exists but is blank the first save writes its row
    to row 1, no header being written; the ids are read from row 2 on, so
    saving the same batch again appends the same item once more and
    reports one row added. *)
Theorem save_on_blank_sheet_duplicates :
  let item := {| payload := Samples.clean; _clientQueueId := Some "q-1001" |} in
  let first :=
    saveBatchToKiemKeSheet true "03/11/2026 08:00:00" [Some item] None
      {["KIEMKE" := []]} in
  let second :=
    saveBatchToKiemKeSheet true "03/11/2026 08:00:05" [Some item] None first.1 in
  first.2 = Added 1
  ∧ second.2 = Added 1
  ∧ second.1 !! "KIEMKE"
    = Some [rowOf "03/11/2026 08:00:00" item; rowOf "03/11/2026 08:00:05" item].
Proof. vm_compute. split_and!; reflexivity. Qed.

(** C2.  A dispatch sends, as one call, the first [min n 5] operations of
    a queue of [n], in queue order, each as its record with its id as the
    token, and its success removes that many from the front.  Twelve
    confirmations followed by three successful turns of the loop give
    calls of sizes 5, 5 and 2 that hold, end to end, the twelve
    operations in their order, an empty queue, and no further call when
    the trigger is invoked again. *)
Theorem dispatch_batch_sizes {js : Js.Strings} :
  (∀ s : State,
     armed s →
     let n := length (offlineQueue s) in
     let sent :=
       (fun b => {| payload := data b; _clientQueueId := Some (id b) |})
         <$> take (n `min` 5) (offlineQueue s) in
     calls (step (TimerFire true) s) = (calls s ++ [sent])%list
     ∧ length sent = n `min` 5
     ∧ offlineQueue (dispatchCycle Resolved s) = drop (n `min` 5) (offlineQueue s))
  ∧ (∀ cs : list Confirmation,
       length cs = 12 → Forall confirmable cs →
       let queued := run (Confirm <$> cs) (boot []) in
       let s := Nat.iter 3 (dispatchCycle Resolved) queued in
       length <$> calls s = [5; 5; 2]
       ∧ concat (calls s)
         = (fun b => {| payload := data b; _clientQueueId := Some (id b) |})
             <$> offlineQueue queued
       ∧ offlineQueue s = []
       ∧ ∀ onLine, calls (step (TimerFire onLine) s) = calls s).
Proof.
  assert (Hmin : ∀ (l : list QueueItem), take (length l `min` 5) l = take 5 l
                 ∧ drop (length l `min` 5) l = drop 5 l).
  { intros l. destruct (decide (5 ≤ length l)%nat).
    - by rewrite Nat.min_r.
    - rewrite Nat.min_l by lia. rewrite take_ge, drop_ge, take_ge, drop_ge by lia. done. }
  split.
  - intros s Ha. simpl. destruct (Hmin (offlineQueue s)) as [-> ->].
    destruct (step_launch s Ha) as (_ & _ & -> & _).
    destruct (cycle_resolved s Ha) as (_ & -> & _).
    simpl. split_and!; try done.
    rewrite length_fmap, length_take. unfold BATCH_SIZE. lia.
  - intros cs Hlen Hcs. cbv zeta. unfold Nat.iter. cbn [nat_rect].
    destruct (run_confirmable cs (boot []) Hcs (boot_Inv []) eq_refl)
      as (HI0 & Hfl0 & Hl0 & Hc0 & Ht0).
    set (s0 := run (Confirm <$> cs) (boot [])) in *.
    change (length (offlineQueue (boot []))) with 0 in Hl0.
    change (calls (boot [])) with (@nil (list BatchItem)) in Hc0.
    assert (Ha0 : armed s0).
    { unfold armed. split_and!; try done.
      - intros Hq. rewrite Hq in Hl0. simpl in Hl0. lia.
      - apply Ht0. by destruct cs. }
    destruct (cycle_resolved s0 Ha0) as (HI1 & Hq1 & Hfl1 & Hc1 & _ & Ht1).
    set (s1 := dispatchCycle Resolved s0) in *.
    assert (Hl1 : length (offlineQueue s1) = 7).
    { rewrite Hq1, length_drop. unfold BATCH_SIZE. lia. }
    assert (Ha1 : armed s1).
    { unfold armed. split_and!; try done.
      - intros Hq. rewrite Hq in Hl1. done.
      - rewrite Ht1. case_bool_decide as Hq; [|done].
        rewrite Hq1, Hq in Hl1. done. }
    destruct (cycle_resolved s1 Ha1) as (HI2 & Hq2 & Hfl2 & Hc2 & _ & Ht2).
    set (s2 := dispatchCycle Resolved s1) in *.
    assert (Hl2 : length (offlineQueue s2) = 2).
    { rewrite Hq2, length_drop. unfold BATCH_SIZE. lia. }
    assert (Ha2 : armed s2).
    { unfold armed. split_and!; try done.
      - intros Hq. rewrite Hq in Hl2. done.
      - rewrite Ht2. case_bool_decide as Hq; [|done].
        rewrite Hq2, Hq in Hl2. done. }
    destruct (cycle_resolved s2 Ha2) as (HI3 & Hq3 & Hfl3 & Hc3 & _ & Ht3).
    set (s3 := dispatchCycle Resolved s2) in *.
    assert (Hq3' : offlineQueue s3 = []).
    { apply length_zero_iff_nil. rewrite Hq3, length_drop. unfold BATCH_SIZE. lia. }
    clearbody s3 s2 s1 s0. split_and!.
    + rewrite Hc3, Hc2, Hc1, Hc0. simpl.
      rewrite !length_fmap, !length_take. unfold BATCH_SIZE.
      rewrite Hl0, Hl1, Hl2, Hlen. reflexivity.
    + rewrite Hc3, Hc2, Hc1, Hc0. simpl. rewrite app_nil_r, <- !fmap_app.
      change toBatchItem
        with (fun b => {| payload := data b; _clientQueueId := Some (id b) |}).
      f_equal. rewrite Hq2, Hq1. unfold BATCH_SIZE.
      rewrite (take_ge (drop 5 (drop 5 (offlineQueue s0))))
        by (rewrite !length_drop; lia).
      by rewrite !take_drop.
    + done.
    + intros onLine. unfold step. rewrite commit_calls. simpl.
      rewrite Ht3, <- Hq3, bool_decide_eq_true_2 by done. done.
Qed.

Lemma dispatch_batch_sizes_witness :
  offlineQueue (dispatchCycle Resolved Samples.queued7)
  = drop 5 (offlineQueue Samples.queued7)
  ∧ length <$> calls (Nat.iter 3 (dispatchCycle Resolved)
                        (run (Confirm <$> Samples.twelve) (boot [])))
    = [5; 5; 2].
Proof.
  destruct dispatch_batch_sizes as [Hone Htwelve]. split.
  - destruct (Hone Samples.queued7 SampleFacts.queued7_armed) as (_ & _ & H).
    exact H.
  - destruct (Htwelve Samples.twelve) as (H & _).
    + reflexivity.
    + repeat constructor; vm_compute; eauto.
    + exact H.
Defined.

(** C3.  The failure of the suspended dispatch leaves the queue, the
    session total and the cache as they are.  Over a whole failed turn of
    the loop the state is as before the dispatch, but for the interval,
    which is doubled up to its ceiling (and the notification of C9). *)
Theorem failed_dispatch_keeps_queue {js : Js.Strings} (s : State) (msg : string) :
  reachable s →
  (offlineQueue (step (Settle (Rejected msg)) s) = offlineQueue s
   ∧ sessionTotal (step (Settle (Rejected msg)) s) = sessionTotal s
   ∧ dataCache (step (Settle (Rejected msg)) s) = dataCache s)
  ∧ (armed s →
     let s' := dispatchCycle (Rejected msg) s in
     offlineQueue s' = offlineQueue s
     ∧ sessionTotal s' = sessionTotal s
     ∧ dataCache s' = dataCache s
     ∧ inflight s' = inflight s
     ∧ isSyncingRef s' = isSyncingRef s
     ∧ isSyncing s' = isSyncing s
     ∧ syncIntervalMs s' = Z.min (syncIntervalMs s * 2) 300000).
Proof.
  intros Hs. pose proof (reachable_Inv s Hs) as HI. split.
  - destruct (inflight s) as [|d rest] eqn:Hfl.
    + unfold step. simpl. unfold settle. rewrite Hfl. by rewrite commit_same.
    + destruct (Inv_flying s d rest HI Hfl) as (-> & _).
      destruct (step_rejected s d msg HI Hfl) as (-> & _ & _ & _ & _ & -> & -> & _).
      done.
  - intros Ha. simpl.
    destruct (cycle_rejected s msg Ha)
      as (_ & -> & -> & _ & _ & -> & -> & -> & -> & -> & _).
    destruct Ha as (_ & Hfl & _ & _).
    destruct HI as [Hf _ _ _ _]. rewrite Hfl in Hf. destruct Hf as [-> ->].
    by rewrite Hfl.
Qed.

Lemma failed_dispatch_keeps_queue_witness :
  offlineQueue (dispatchCycle (Rejected "timeout") Samples.queued7)
  = offlineQueue Samples.queued7.
Proof.
  destruct (failed_dispatch_keeps_queue Samples.queued7 "timeout"
              SampleFacts.queued7_reachable) as [_ H].
  destruct (H SampleFacts.queued7_armed) as (Hq & _). exact Hq.
Defined.

(** C4.  In a session at most one dispatch is suspended.  Invoking the
    trigger while one is suspended, or on an empty queue, or off line,
    returns at the guard: the state is returned as it is, no call is
    issued, and the step consumes nothing but the timer that fired. *)
Theorem dispatch_trigger_guard {js : Js.Strings} (s : State) (onLine : bool) :
  reachable s →
  (length (inflight s) ≤ 1)%nat
  ∧ (inflight s ≠ [] ∨ offlineQueue s = [] ∨ onLine = false →
     processSyncQueue onLine s = s
     ∧ step (TimerFire onLine) s = clearTimer s
     ∧ calls (step (TimerFire onLine) s) = calls s
     ∧ inflight (step (TimerFire onLine) s) = inflight s).
Proof.
  intros Hs. pose proof (reachable_Inv s Hs) as HI. split.
  - destruct HI as [Hf _ _ _ _].
    destruct (inflight s) as [|d [|? ?]]; simpl; [lia | lia | done].
  - intros Hb. destruct (step_blocked s onLine HI Hb) as [Hp Hst].
    rewrite Hst. done.
Qed.

Lemma dispatch_trigger_guard_witness :
  processSyncQueue true Samples.launched7 = Samples.launched7.
Proof.
  destruct (dispatch_trigger_guard Samples.launched7 true
              SampleFacts.launched7_reachable) as [_ H].
  destruct H as (Hp & _); [|exact Hp].
  left. vm_compute. discriminate.
Defined.

(** C5.  Whatever the interval is, the failure of a dispatch sets it to
    [min (2 * interval) 300000] and its success sets it to 1000.  From an
    interval in [1000, 300000], [n] failed turns of the loop leave
    [min (2^n * interval) 300000]: never above 300000, and exactly 300000
    from the ninth failure on.  (When a success has emptied the queue, the
    trigger loop then puts the interval of the idle engine back to 10000:
    [step_resolved].) *)
Theorem backoff_bounds {js : Js.Strings} (s : State) (msg : string) :
  (∀ d rest, inflight s = d :: rest →
     syncIntervalMs (settle (Rejected msg) s) = Z.min (2 * syncIntervalMs s) 300000
     ∧ syncIntervalMs (settle Resolved s) = 1000%Z)
  ∧ ((1000 ≤ syncIntervalMs s ≤ 300000)%Z → armed s →
     ∀ n, let i := syncIntervalMs (Nat.iter n (dispatchCycle (Rejected msg)) s) in
          i = Z.min (2 ^ Z.of_nat n * syncIntervalMs s) 300000
          ∧ (i ≤ 300000)%Z
          ∧ ((9 ≤ n)%nat → i = 300000%Z)).
Proof.
  split.
  - intros d rest Hfl. unfold settle. rewrite Hfl. simpl. split; [|done].
    destruct (60000 <? seenIntervalMs d)%Z; simpl; f_equal; lia.
  - intros Hr Ha n. simpl.
    rewrite failures_interval; [ | apply Ha | apply Ha | by left].
    split_and!; [done | lia |].
    intros Hn.
    assert (2 ^ 9 ≤ 2 ^ Z.of_nat n)%Z by (apply Z.pow_le_mono_r; lia).
    change (2 ^ 9)%Z with 512%Z in *. nia.
Qed.

Lemma backoff_bounds_witness :
  syncIntervalMs (settle (Rejected "timeout") Samples.launched7) = 20000%Z
  ∧ syncIntervalMs (settle Resolved Samples.launched7) = 1000%Z
  ∧ syncIntervalMs (Nat.iter 9 (dispatchCycle (Rejected "timeout")) Samples.queued7)
    = 300000%Z.
Proof.
  split_and!.
  - destruct (backoff_bounds Samples.launched7 "timeout") as [H _].
    edestruct H as [H1 _]; [vm_compute; reflexivity|]. exact H1.
  - destruct (backoff_bounds Samples.launched7 "timeout") as [H _].
    edestruct H as [_ H2]; [vm_compute; reflexivity|]. exact H2.
  - destruct (backoff_bounds Samples.queued7 "timeout") as [_ H].
    destruct (H ltac:(vm_compute; split; discriminate) SampleFacts.queued7_armed 9)
      as (_ & _ & H9).
    apply H9. lia.
Defined.

(** C6.  In a session the total is zero exactly when the queue is empty,
    and then the syncing flag is off; a confirmation adds one to the
    total, which on an empty queue makes it the new queue length; start-up
    arms it with the length of the persisted queue. *)
Theorem session_progress {js : Js.Strings} (s : State) :
  reachable s →
  (offlineQueue s = [] ↔ sessionTotal s = 0)
  ∧ (offlineQueue s = [] → isSyncing s = false)
  ∧ (∀ c, confirmable c →
       sessionTotal (step (Confirm c) s) = S (sessionTotal s)
       ∧ (offlineQueue s = [] →
          sessionTotal (step (Confirm c) s)
          = length (offlineQueue (step (Confirm c) s))))
  ∧ (∀ queue, sessionTotal (boot queue) = length queue).
Proof.
  intros Hs. pose proof (reachable_Inv s Hs) as [Hf Ht He Hi Hm]. split_and!.
  - split; [intros Hq; by destruct (He Hq)|].
    intros H0. rewrite H0 in Ht. destruct (offlineQueue s); [done|simpl in Ht; lia].
  - intros Hq. destruct (inflight s) as [|d [|? ?]]; [apply Hf| |done].
    destruct Hf as (_ & _ & Hb & Hp & _). rewrite Hq in Hp.
    by apply prefix_nil_inv in Hp.
  - intros c [[item Hi'] [user Hu]].
    destruct (step_confirm s c item user Hi' Hu) as (Hq & _ & _ & Htot & _).
    simpl in *. rewrite Htot, Hq. split; [lia|].
    intros Hq0. destruct (He Hq0) as (-> & _). rewrite Hq0. done.
  - intros queue. unfold boot.
    destruct (commit_written initial (loadQueue queue initial)) as (-> & _).
    simpl. destruct queue; simpl; [by repeat case_bool_decide|].
    by repeat case_bool_decide.
Qed.

Lemma session_progress_witness :
  offlineQueue Samples.queued7 = [] ↔ sessionTotal Samples.queued7 = 0.
Proof.
  destruct (session_progress Samples.queued7 SampleFacts.queued7_reachable)
    as (H & _).
  exact H.
Defined.




(** C8.  Two confirmations that read the same value of the clock give two
    queue elements with one id. *)
Theorem enqueue_same_clock_collides :
  let c := Samples.confirmAt 1700000000000 in
  let s := run [Confirm c; Confirm c] (boot []) in
  id <$> offlineQueue s = ["q-1700000000000"; "q-1700000000000"]
  ∧ ¬ NoDup (id <$> offlineQueue s).
Proof.
  cbv zeta. assert (H : id <$> offlineQueue
            (run [Confirm (Samples.confirmAt 1700000000000);
                  Confirm (Samples.confirmAt 1700000000000)] (boot []))
          = ["q-1700000000000"; "q-1700000000000"]) by (vm_compute; reflexivity).
  rewrite H. split; [done|].
  intros Hnd. apply NoDup_cons in Hnd as [Hin _]. apply Hin. by left.
Qed.

(** C9 (as amended).  The failure of a dispatch shows an error exactly
    when the interval that the dispatch saw at its launch exceeds 60000,
    whatever happens to the interval while the call is in flight; over a
    failed turn of the loop that is the interval before the turn doubles
    it.  Under sustained failure an error is shown within eleven
    turns. *)
Theorem failure_notification {js : Js.Strings} (s : State) (msg : string) :
  (∀ d rest, inflight s = d :: rest →
     notifications (settle (Rejected msg) s) =
       (notifications s ++
        if (60000 <? seenIntervalMs d)%Z
        then [{| message := SyncError (errorText msg); severity := error |}]
        else [])%list)
  ∧ (armed s →
     let s' := dispatchCycle (Rejected msg) s in
     notifications s' =
       (notifications s ++
        if (60000 <? syncIntervalMs s)%Z
        then [{| message := SyncError (errorText msg); severity := error |}]
        else [])%list
     ∧ (notifications s' ≠ notifications s ↔ (60000 < syncIntervalMs s)%Z)
     ∧ (length (errorsShown s)
        < length (errorsShown (Nat.iter 11 (dispatchCycle (Rejected msg)) s)))%nat)
  ∧ (armed s →
     ∀ es, forallb (fun e => negb (isSettle e)) es = true →
       let flying := run es (step (TimerFire true) s) in
       notifications (step (Settle (Rejected msg)) flying) =
         (notifications flying ++
          if (60000 <? syncIntervalMs s)%Z
          then [{| message := SyncError (errorText msg); severity := error |}]
          else [])%list).
Proof.
  split_and!.
  - intros d rest Hfl. unfold settle. rewrite Hfl. simpl.
    destruct (60000 <? seenIntervalMs d)%Z; simpl; [done|by rewrite app_nil_r].
  - intros Ha. cbv zeta.
    destruct (cycle_rejected s msg Ha) as (_ & _ & _ & _ & Hnot & _).
    cbv zeta in Hnot. split_and!.
    + done.
    + rewrite Hnot. destruct (60000 <? syncIntervalMs s)%Z eqn:Hlt.
      * apply Z.ltb_lt in Hlt. split; [done|]. intros _ Heq.
        apply (f_equal length) in Heq. rewrite length_app in Heq. simpl in Heq. lia.
      * apply Z.ltb_ge in Hlt. rewrite app_nil_r. split; [done|lia].
    + apply (failures_notify 10); [done|].
      pose proof (inv_interval s (proj1 Ha)) as Hr.
      change (2 ^ Z.of_nat 10)%Z with 1024%Z. lia.
  - intros Ha es Hes. cbv zeta.
    destruct (armed_launched s Ha) as [HI1 Hfl1].
    destruct (run_in_flight es _ _ HI1 Hfl1 Hes) as (Hfl2 & _).
    by destruct (step_rejected _ _ msg (run_Inv es _ HI1) Hfl2) as (_ & _ & _ & -> & _).
Qed.

Lemma failure_notification_witness :
  notifications (dispatchCycle (Rejected "timeout") Samples.queued7)
  = notifications Samples.queued7
  ∧ notifications (dispatchCycle (Rejected "timeout") Samples.backedOff)
    = (notifications Samples.backedOff
       ++ [{| message := SyncError "timeout"; severity := error |}])%list
  ∧ notifications (settle (Rejected "timeout") Samples.launched7)
    = notifications Samples.launched7.
Proof.
  split_and!.
  - destruct (failure_notification Samples.queued7 "timeout") as (_ & H & _).
    destruct (H SampleFacts.queued7_armed) as (Hn & _).
    rewrite Hn. vm_compute. reflexivity.
  - destruct (failure_notification Samples.backedOff "timeout") as (_ & H & _).
    destruct (H SampleFacts.backedOff_armed) as (Hn & _).
    rewrite Hn. vm_compute. reflexivity.
  - destruct (failure_notification Samples.launched7 "timeout") as (H & _).
    erewrite H; [|vm_compute; reflexivity]. vm_compute. reflexivity.
Defined.

(** C9, as stated, fails twice.  A failure that takes the interval from
    40000 to 80000 shows nothing, although the interval has then climbed
    past 60000.  And a dispatch launched at 80000, with the [online] event
    arriving while it is in flight, shows the error when it fails,
    although the interval is then 100 and the failure takes it to 200. *)
Lemma failure_notification_stale :
  let quiet := Nat.iter 2 (dispatchCycle (Rejected "timeout")) Samples.queued7 in
  let flying := step Online (step (TimerFire true) Samples.backedOff) in
  let failed := step (Settle (Rejected "timeout")) flying in
  (syncIntervalMs quiet = 40000%Z
   ∧ syncIntervalMs (dispatchCycle (Rejected "timeout") quiet) = 80000%Z
   ∧ notifications (dispatchCycle (Rejected "timeout") quiet) = notifications quiet)
  ∧ (syncIntervalMs flying = 100%Z
     ∧ syncIntervalMs failed = 200%Z
     ∧ notifications failed
       = (notifications flying
          ++ [{| message := SyncError "timeout"; severity := error |}])%list).
Proof. vm_compute. split_and!; reflexivity. Qed.

(** C10.  A dispatch is launched, any events other than its settlement
    follow, and it succeeds: the queue is what stood behind the dispatched
    front part, followed by every item enqueued meanwhile, in order. *)
Theorem success_keeps_later_items {js : Js.Strings} (s : State) (es : list Event) :
  armed s →
  forallb (fun e => negb (isSettle e)) es = true →
  let launched := step (TimerFire true) s in
  let settled := step (Settle Resolved) (run es launched) in
  offlineQueue (run es launched) =
    (offlineQueue s ++ concat (enqueuedBy <$> es))%list
  ∧ offlineQueue settled =
      (drop BATCH_SIZE (offlineQueue s) ++ concat (enqueuedBy <$> es))%list.
Proof.
  intros Ha Hes. simpl.
  destruct (armed_launched s Ha) as [HI1 Hfl1].
  destruct (step_launch s Ha) as (Hq1 & _).
  destruct (run_in_flight es _ _ HI1 Hfl1 Hes) as (Hfl2 & _ & Hq2).
  rewrite Hq1 in Hq2. split; [done|].
  destruct (step_resolved _ _ (run_Inv es _ HI1) Hfl2) as (-> & _).
  simpl. rewrite Hq2.
  rewrite drop_app_le by (rewrite length_take; lia).
  by rewrite drop_length_take.
Qed.

Lemma success_keeps_later_items_witness :
  offlineQueue
    (step (Settle Resolved)
       (run [Confirm (Samples.confirmAt 2001); Online]
          (step (TimerFire true) Samples.queued7)))
  = (drop BATCH_SIZE (offlineQueue Samples.queued7)
     ++ concat (enqueuedBy <$> [Confirm (Samples.confirmAt 2001); Online]))%list.
Proof.
  destruct (success_keeps_later_items Samples.queued7
              [Confirm (Samples.confirmAt 2001); Online]
              SampleFacts.queued7_armed eq_refl) as [_ H].
  exact H.
Defined.

(** * Further properties *)

(** ** Draining the queue *)

Module SyncDrain.
Import Sync SyncMore SyncFacts SyncInv SyncSteps SyncCycles.

Section SyncDrain_strings.
Context {js : Js.Strings}.

Lemma idle_empty_stalled s o :
  idle s → offlineQueue s = [] → dispatchCycle o s = s.
Proof.
  intros (HI & Hfl & _) Hq. apply cycle_stalled; [done|].
  by destruct (inv_empty s HI Hq) as (_ & _ & ?).
Qed.

Lemma take_take_drop {A} (l : list A) n m :
  (take n l ++ take m (drop n l))%list = take (n + m) l.
Proof.
  revert l. induction n as [|n IH]; intros l; [done|].
  destruct l as [|x l]; simpl; [by rewrite take_nil|]. by rewrite IH.
Qed.

(** [k] successful turns of the loop. *)
Lemma successes_drain k s :
  idle s →
  let s' := Nat.iter k (dispatchCycle Resolved) s in
  idle s'
  ∧ offlineQueue s' = drop (BATCH_SIZE * k) (offlineQueue s)
  ∧ ∃ sent, calls s' = (calls s ++ sent)%list
            ∧ concat sent = toBatchItem <$> take (BATCH_SIZE * k) (offlineQueue s)
            ∧ Forall (fun c => 1 ≤ length c ≤ BATCH_SIZE)%nat sent.
Proof.
  revert s. induction k as [|k IH]; intros s Hs; cbv zeta.
  - rewrite Nat.mul_0_r. simpl. split_and!; [done..|].
    exists []. by rewrite app_nil_r.
  - rewrite Nat.iter_succ_r.
    destruct (decide (offlineQueue s = [])) as [Hq|Hq].
    + rewrite idle_empty_stalled by done.
      destruct (IH s Hs) as (Hi & Hq' & sent & Hc & Hs' & Hf).
      split_and!; [done | by rewrite Hq', Hq, !drop_nil |].
      exists sent. split_and!; [done | | done].
      rewrite Hs', Hq. by rewrite !take_nil.
    + assert (Ha : armed s).
      { destruct Hs as (HI & Hfl & Ht). unfold armed. split_and!; auto. }
      destruct (cycle_resolved s Ha) as (HI1 & Hq1 & Hfl1 & Hc1 & _ & Ht1).
      cbv zeta in *.
      assert (Hs1 : idle (dispatchCycle Resolved s)).
      { unfold idle. split_and!; [done..|].
        intros Hne. rewrite Ht1. rewrite Hq1 in Hne.
        by rewrite bool_decide_eq_false_2. }
      destruct (IH _ Hs1) as (Hi & Hq' & sent & Hc & Hs' & Hf).
      split_and!; [done | |].
      * rewrite Hq', Hq1, drop_drop. f_equal. unfold BATCH_SIZE. lia.
      * exists ((toBatchItem <$> take BATCH_SIZE (offlineQueue s)) :: sent).
        split_and!.
        -- rewrite Hc, Hc1, <- app_assoc. done.
        -- change (concat (?c :: sent)) with (c ++ concat sent)%list.
           rewrite Hs', Hq1, <- fmap_app, take_take_drop.
           replace (BATCH_SIZE * S k) with (BATCH_SIZE + BATCH_SIZE * k)
             by (unfold BATCH_SIZE; lia).
           done.
        -- constructor; [|done]. rewrite length_fmap, length_take.
           assert (0 < length (offlineQueue s))%nat
             by (destruct (offlineQueue s); [done | simpl; lia]).
           unfold BATCH_SIZE. lia.
Qed.

End SyncDrain_strings.

End SyncDrain.

Import SyncMore SyncDrain.

(** X1.  Successful turns of the loop deliver the queue in order, each
    operation once: after [k] turns from a state ready to dispatch, the
    calls issued, put end to end, are the first [5 * k] operations of the
    queue, each sent as its record with its id as the token; each call
    holds between one and five of them, and the queue is what stood
    behind them; with [5 * k] at least the queue length the queue is
    empty and everything has been sent. *)
Theorem fifo_delivery {js : Js.Strings} (s : State) (k : nat) :
  armed s →
  let s' := Nat.iter k (dispatchCycle Resolved) s in
  offlineQueue s' = drop (5 * k) (offlineQueue s)
  ∧ (∃ sent, calls s' = (calls s ++ sent)%list
             ∧ concat sent
               = (fun b => {| payload := data b; _clientQueueId := Some (id b) |})
                   <$> take (5 * k) (offlineQueue s)
             ∧ Forall (fun c => 1 ≤ length c ≤ 5)%nat sent)
  ∧ ((length (offlineQueue s) ≤ 5 * k)%nat →
     offlineQueue s' = []
     ∧ concat (drop (length (calls s)) (calls s'))
       = (fun b => {| payload := data b; _clientQueueId := Some (id b) |})
           <$> offlineQueue s).
Proof.
  intros (HI & Hfl & Hq & Ht). cbv zeta.
  destruct (successes_drain k s) as (_ & Hq' & sent & Hc & Hs & Hf).
  { unfold idle. auto. }
  split_and!; [done | by exists sent |].
  intros Hlen. split.
  - rewrite Hq'. apply drop_ge. unfold BATCH_SIZE. lia.
  - rewrite Hc, drop_app_length, Hs. f_equal. apply take_ge. unfold BATCH_SIZE. lia.
Qed.

Lemma fifo_delivery_witness :
  offlineQueue (Nat.iter 2 (dispatchCycle Resolved) Samples.queued7) = [].
Proof.
  destruct (fifo_delivery Samples.queued7 2 SampleFacts.queued7_armed) as (_ & _ & H).
  destruct H as [H _]; [vm_compute; lia | exact H].
Defined.

(** ** More on the handlers *)

Module SyncMoreFacts.
Import Sync SyncMore SyncFacts SyncInv SyncSteps SyncCycles.

Section SyncMoreFacts_strings.
Context {js : Js.Strings}.

(** A step logs at most one call: the first five operations of a queue
    with work. *)
Lemma step_calls e s :
  calls (step e s) = calls s
  ∨ offlineQueue s ≠ []
    ∧ calls (step e s)
      = (calls s ++ [toBatchItem <$> take BATCH_SIZE (offlineQueue s)])%list.
Proof.
  unfold step. rewrite commit_calls.
  destruct e as [c | onLine | o | | onLine]; simpl.
  - left. unfold handleConfirmCheck. by destruct (itemToSave c), (currentUser c).
  - destruct (timer s); [|by left]. unfold processSyncQueue. simpl.
    destruct (offlineQueue s) as [|q0 q] eqn:Hq; [by left|].
    destruct (isSyncingRef s), onLine; simpl; try by left.
    right. done.
  - left. unfold settle. destruct (inflight s); [done|].
    destruct o; simpl; [done|]. by destruct (60000 <? _)%Z.
  - left. unfold handleOnline. by destruct (0 <? _)%nat.
  - left. unfold handleManualSync. destruct onLine; simpl; [|done].
    by destruct (_ =? 0)%nat.
Qed.

(** The ids of the queue stay present: the persisted ones are, and a new
    one starts with ["q-"]. *)
Lemma step_idsPresent e s :
  idsPresent (offlineQueue s) → idsPresent (offlineQueue (step e s)).
Proof.
  intros Hq. unfold step. rewrite commit_offlineQueue.
  destruct e as [c | onLine | o | | onLine]; simpl.
  - unfold handleConfirmCheck.
    destruct (itemToSave c), (currentUser c); simpl; try done.
    apply Forall_app. split; [done|]. by repeat constructor.
  - destruct (timer s); [|done]. unfold processSyncQueue. simpl.
    by destruct (_ || _ || _).
  - unfold settle. destruct (inflight s); [done|].
    destruct o; simpl; [by apply Forall_drop|]. by destruct (60000 <? _)%Z.
  - unfold handleOnline. by destruct (0 <? _)%nat.
  - unfold handleManualSync. destruct onLine; simpl; [|done].
    by destruct (_ =? 0)%nat.
Qed.

Lemma toBatchItem_hasToken q : id q ≠ EmptyString → Server.hasToken (toBatchItem q).
Proof. done. Qed.

Lemma call_sized s :
  offlineQueue s ≠ [] →
  callSized (toBatchItem <$> take BATCH_SIZE (offlineQueue s)).
Proof.
  intros Hne. unfold callSized. rewrite length_fmap, length_take.
  assert (0 < length (offlineQueue s))%nat
    by (destruct (offlineQueue s); [done | simpl; lia]).
  unfold BATCH_SIZE. lia.
Qed.

Lemma run_callSized es s :
  Forall callSized (calls s) → Forall callSized (calls (run es s)).
Proof.
  revert s. induction es as [|e es IH]; intros s Hc; [done|].
  rewrite run_cons. apply IH.
  destruct (step_calls e s) as [-> | [Hne ->]]; [done|].
  apply Forall_app. split; [done|]. constructor; [|done]. by apply call_sized.
Qed.

Lemma run_tokens es s :
  idsPresent (offlineQueue s) → Forall (Forall Server.hasToken) (calls s) →
  idsPresent (offlineQueue (run es s))
  ∧ Forall (Forall Server.hasToken) (calls (run es s)).
Proof.
  revert s. induction es as [|e es IH]; intros s Hq Hc; [done|].
  rewrite run_cons. apply IH; [by apply step_idsPresent|].
  destruct (step_calls e s) as [-> | [Hne ->]]; [done|].
  apply Forall_app. split; [done|]. constructor; [|done].
  apply Forall_fmap. apply Forall_take.
  eapply Forall_impl; [exact Hq|]. intros q. apply toBatchItem_hasToken.
Qed.

Lemma boot_frame queue :
  offlineQueue (boot queue) = queue ∧ calls (boot queue) = []
  ∧ inflight (boot queue) = [].
Proof.
  unfold boot.
  destruct (commit_frame initial (loadQueue queue initial)) as (-> & -> & -> & _).
  done.
Qed.

(** The [online] event. *)
Lemma step_online (s : State) :
  let s' := step Online s in
  (offlineQueue s = [] → s' = s)
  ∧ (offlineQueue s ≠ [] →
     syncIntervalMs s' = 100%Z
     ∧ timer s' = (if bool_decide (syncIntervalMs s = 100%Z) then timer s else Some 100%Z))
  ∧ offlineQueue s' = offlineQueue s
  ∧ calls s' = calls s
  ∧ inflight s' = inflight s
  ∧ notifications s' = notifications s.
Proof.
  cbv zeta. unfold step. simpl.
  destruct (decide (offlineQueue s = [])) as [Hq0|Hne].
  - assert (Hh : handleOnline s = s) by (unfold handleOnline; by rewrite Hq0).
    rewrite Hh, commit_same. split_and!; done.
  - assert (Hh : handleOnline s = setSyncIntervalMs (fun _ => 100%Z) s).
    { unfold handleOnline. by destruct (offlineQueue s). }
    rewrite Hh.
    destruct (commit_frame s (setSyncIntervalMs (fun _ => 100%Z) s))
      as (-> & -> & -> & -> & _).
    destruct (commit_written s (setSyncIntervalMs (fun _ => 100%Z) s))
      as (_ & _ & -> & ->).
    rewrite retrigger_queue_same by done. simpl.
    rewrite (bool_decide_eq_false_2 (offlineQueue s = [])) by done.
    rewrite andb_false_r. split_and!; try done. intros _. split; [done|].
    by destruct (bool_decide (syncIntervalMs s = 100%Z)).
Qed.

(** Start-up with the persisted queue. *)
Lemma boot_written queue :
  sessionTotal (boot queue) = length queue
  ∧ syncIntervalMs (boot queue) = 10000%Z
  ∧ timer (boot queue) = (if bool_decide (queue = []) then None else Some 10000%Z)
  ∧ isSyncing (boot queue) = false
  ∧ notifications (boot queue) = []
  ∧ dataCache (boot queue) = ∅.
Proof.
  destruct queue as [|q queue].
  - unfold boot.
    assert (loadQueue [] initial = initial) as -> by done.
    by rewrite commit_same.
  - unfold boot.
    destruct (commit_frame initial (loadQueue (q :: queue) initial))
      as (_ & _ & _ & -> & _ & ->).
    destruct (commit_written initial (loadQueue (q :: queue) initial))
      as (-> & -> & -> & ->).
    rewrite retrigger_queue_changed by done. simpl.
    done.
Qed.

End SyncMoreFacts_strings.

End SyncMoreFacts.

Import SyncMore SyncMoreFacts.

(** X2.  Every network call of a session holds between one and five
    items; when the ids of the persisted queue are present, every item of
    every call carries a token that is not empty. *)
Theorem calls_well_formed {js : Js.Strings} (queue : list QueueItem) (es : list Event) :
  Forall callSized (calls (run es (boot queue)))
  ∧ (idsPresent queue →
     Forall (Forall hasToken) (calls (run es (boot queue)))).
Proof.
  destruct (boot_frame queue) as (Hq & Hc & _). split.
  - apply run_callSized. by rewrite Hc.
  - intros Hids. apply run_tokens; [by rewrite Hq | by rewrite Hc].
Qed.

Lemma calls_well_formed_witness :
  Forall (Forall hasToken)
    (calls (run [Confirm (Samples.confirmAt 1001); TimerFire true] (boot []))).
Proof.
  destruct (calls_well_formed [] [Confirm (Samples.confirmAt 1001); TimerFire true])
    as [_ H].
  apply H. constructor.
Defined.

(** X3.  In every state of a session the interval lies in
    [100, 300000]; an empty queue has the idle interval 10000 and no timer
    pending; a pending timer was armed with the current interval, on a
    queue with work; the spinner flag agrees with the guard flag; and a
    suspended dispatch holds a front part of the queue, not empty, with
    the items sent made from it. *)
Theorem session_invariants {js : Js.Strings} (s : State) :
  reachable s →
  (100 ≤ syncIntervalMs s ≤ 300000)%Z
  ∧ (offlineQueue s = [] → syncIntervalMs s = 10000%Z ∧ timer s = None)
  ∧ (∀ i, timer s = Some i → i = syncIntervalMs s ∧ offlineQueue s ≠ [])
  ∧ isSyncing s = isSyncingRef s
  ∧ (∀ d, d ∈ inflight s →
       batch d ≠ [] ∧ batch d `prefix_of` offlineQueue s
       ∧ batchItems d = toBatchItem <$> batch d).
Proof.
  intros Hs. pose proof (reachable_Inv s Hs) as [Hf Ht He Hi Hm]. split_and!.
  - apply Hi.
  - apply Hi.
  - intros Hq. by destruct (He Hq) as (_ & ? & ?).
  - done.
  - destruct (inflight s) as [|d [|? ?]]; [|  |done].
    + destruct Hf as [-> ->]. done.
    + destruct Hf as (-> & -> & _). done.
  - intros d Hd. destruct (inflight s) as [|d' [|? ?]]; [by apply elem_of_nil in Hd| |done].
    apply list_elem_of_singleton in Hd as ->.
    destruct Hf as (_ & _ & ? & ? & _ & ?). done.
Qed.

Lemma session_invariants_witness :
  (100 ≤ syncIntervalMs Samples.launched7 ≤ 300000)%Z.
Proof.
  destruct (session_invariants Samples.launched7 SampleFacts.launched7_reachable)
    as (H & _).
  exact H.
Defined.

(** X4.  A failure with the interval at its ceiling leaves no timer
    pending, although the queue still has work: further turns of the loop
    and further firings do nothing, and the engine retries only after an
    event that changes the queue or the interval, such as a
    confirmation. *)
Theorem retry_stops_at_ceiling {js : Js.Strings} (s : State) (msg : string) :
  armed s → syncIntervalMs s = 300000%Z →
  let s' := dispatchCycle (Rejected msg) s in
  offlineQueue s' = offlineQueue s
  ∧ syncIntervalMs s' = 300000%Z
  ∧ timer s' = None
  ∧ (∀ o n, Nat.iter n (dispatchCycle o) s' = s')
  ∧ (∀ onLine, step (TimerFire onLine) s' = s')
  ∧ (∀ c, confirmable c → timer (step (Confirm c) s') = Some 300000%Z).
Proof.
  intros Ha Hi. cbv zeta.
  destruct (cycle_rejected s msg Ha)
    as (HI' & Hq & Hfl & _ & _ & Hi' & _ & _ & _ & _ & Ht).
  cbv zeta in *. rewrite Hi in *. change (300000 * 2 `min` 300000)%Z with 300000%Z in *.
  rewrite bool_decide_eq_true_2 in Ht by done.
  split_and!; try done.
  - intros o n. induction n as [|n IH]; [done|]. simpl. rewrite IH.
    by apply cycle_stalled.
  - intros onLine. unfold step. simpl. rewrite Ht. apply commit_same.
  - intros c [[item Hitem] [user Hu]].
    destruct (step_confirm (dispatchCycle (Rejected msg) s) c item user Hitem Hu)
      as (_ & _ & _ & _ & _ & _ & _ & ->).
    by rewrite Hi'.
Qed.

(** X5.  The [online] event does nothing on an empty queue; on a queue
    with work it sets the interval to 100 and, unless the interval was 100
    already, arms the timer with 100; queue, calls and suspended dispatch
    are as before. *)
Theorem online_event {js : Js.Strings} (s : State) :
  let s' := step Online s in
  (offlineQueue s = [] → s' = s)
  ∧ (offlineQueue s ≠ [] →
     syncIntervalMs s' = 100%Z
     ∧ timer s' = (if bool_decide (syncIntervalMs s = 100%Z) then timer s else Some 100%Z))
  ∧ offlineQueue s' = offlineQueue s
  ∧ calls s' = calls s
  ∧ inflight s' = inflight s
  ∧ notifications s' = notifications s.
Proof. apply step_online. Qed.


(** X6.  A manual sync request issues no call and leaves the queue, the
    session total and the suspended dispatch as they are.  Off line it
    only shows an error; on line with an empty queue it only shows that
    all is synced; on line with work it shows that syncing starts and sets
    the interval to 100. *)
Theorem manual_sync {js : Js.Strings} (s : State) (onLine : bool) :
  let s' := step (ManualSync onLine) s in
  offlineQueue s' = offlineQueue s
  ∧ calls s' = calls s
  ∧ inflight s' = inflight s
  ∧ sessionTotal s' = sessionTotal s
  ∧ notifications s' =
      (notifications s ++
       [if negb onLine then {| message := NoNetwork; severity := error |}
        else if bool_decide (offlineQueue s = [])
             then {| message := AllSynced; severity := success |}
             else {| message := Syncing; severity := info |}])%list
  ∧ (syncIntervalMs s' =
       if onLine && negb (bool_decide (offlineQueue s = []))
       then 100%Z else syncIntervalMs s)%Z.
Proof.
  cbv zeta. unfold step. simpl.
  assert (Hshow : ∀ m t,
    let c := commit s (showNotification m t s) in
    offlineQueue c = offlineQueue s ∧ calls c = calls s ∧ inflight c = inflight s
    ∧ sessionTotal c = sessionTotal s
    ∧ notifications c = (notifications s ++ [{| message := m; severity := t |}])%list
    ∧ syncIntervalMs c = syncIntervalMs s).
  { intros m t. cbv zeta.
    destruct (commit_frame s (showNotification m t s)) as (-> & -> & -> & -> & _).
    destruct (commit_written s (showNotification m t s)) as (-> & _ & -> & _).
    rewrite retrigger_queue_same by done. simpl.
    rewrite (bool_decide_eq_true_2 (length _ = length _)) by done.
    by rewrite (bool_decide_eq_true_2 (syncIntervalMs s = _)). }
  destruct onLine; simpl.
  - destruct (decide (offlineQueue s = [])) as [Hq0|Hne].
    + assert (Hh : handleManualSync true s = showNotification AllSynced success s).
      { unfold handleManualSync. by rewrite Hq0. }
      rewrite Hh, (bool_decide_eq_true_2 _ Hq0). apply Hshow.
    + assert (Hh : handleManualSync true s
                   = setSyncIntervalMs (fun _ => 100%Z) (showNotification Syncing info s)).
      { unfold handleManualSync. by destruct (offlineQueue s). }
      rewrite Hh, (bool_decide_eq_false_2 _ Hne).
      match goal with |- context [commit s ?c] =>
        destruct (commit_frame s c) as (-> & -> & -> & -> & _);
        destruct (commit_written s c) as (-> & _ & -> & _)
      end. simpl.
      rewrite (bool_decide_eq_true_2 (length _ = length _)) by done.
      rewrite (bool_decide_eq_false_2 (offlineQueue s = [])) by done.
      by rewrite andb_false_r.
  - assert (Hh : handleManualSync false s = showNotification NoNetwork error s) by done.
    rewrite Hh. apply Hshow.
Qed.

Module MoreSampleFacts.
Import Sync SyncInv SyncMore.

Lemma atCeiling_armed : armed Samples.atCeiling.
Proof.
  unfold armed. split_and!.
  - apply reachable_Inv. unfold Samples.atCeiling, Nat.iter, dispatchCycle.
    cbn [nat_rect]. do 10 apply reachable_step. apply SampleFacts.queued7_reachable.
  - reflexivity.
  - vm_compute. discriminate.
  - vm_compute. discriminate.
Qed.

End MoreSampleFacts.

Module CacheFacts.

Section CacheFacts_strings.
Context {js : Js.Strings}.

Lemma updateCache_lookup item cache key :
  key = sku item ∨ key = packageId item → Js.truthy key = true →
  Cache.updateCache item cache !! Js.toLowerCase key = Some item.
Proof.
  intros Hkey Htruthy. unfold Cache.updateCache.
  destruct Hkey as [-> | ->]; rewrite ?Htruthy.
  - destruct (Js.truthy (packageId item)); [|by rewrite lookup_insert_eq].
    destruct (decide (Js.toLowerCase (packageId item) = Js.toLowerCase (sku item)))
      as [<- | Hne]; [by rewrite lookup_insert_eq|].
    rewrite lookup_insert_ne by done. by rewrite lookup_insert_eq.
  - by rewrite lookup_insert_eq.
Qed.


End CacheFacts_strings.

End CacheFacts.

Import MoreSampleFacts CacheFacts.

Lemma retry_stops_at_ceiling_witness :
  timer (dispatchCycle (Rejected "timeout") Samples.atCeiling) = None.
Proof.
  destruct (retry_stops_at_ceiling Samples.atCeiling "timeout" atCeiling_armed)
    as (_ & _ & H & _).
  - vm_compute. reflexivity.
  - exact H.
Defined.



(** X8.  The progress shown by the dashboard, [itemsDone], lies between 0
    and the session total in every state of a session.  A confirmation and
    a failed dispatch leave it as it is; a successful dispatch adds the
    size of its batch, or puts it back to 0 when the queue is thereby
    empty. *)
Theorem items_done_progress {js : Js.Strings} (s : State) :
  reachable s →
  (0 ≤ itemsDoneOf s ≤ Z.of_nat (sessionTotal s))%Z
  ∧ (∀ c, confirmable c → itemsDoneOf (step (Confirm c) s) = itemsDoneOf s)
  ∧ (∀ msg, itemsDoneOf (step (Settle (Rejected msg)) s) = itemsDoneOf s)
  ∧ (∀ d, inflight s = [d] →
       itemsDoneOf (step (Settle Resolved) s)
       = if bool_decide (drop (length (batch d)) (offlineQueue s) = [])
         then 0%Z else (itemsDoneOf s + Z.of_nat (length (batch d)))%Z).
Proof.
  intros Hs. pose proof (reachable_Inv s Hs) as HI.
  pose proof (inv_total s HI) as Ht. pose proof (inv_empty s HI) as He.
  unfold itemsDoneOf, itemsDone. split_and!.
  - destruct (0 <? _)%Z; lia.
  - destruct (0 <? _)%Z; lia.
  - intros c [[item Hi] [user Hu]].
    destruct (step_confirm s c item user Hi Hu) as (-> & _ & _ & -> & _).
    rewrite length_app. simpl.
    destruct (offlineQueue s) as [|q0 q] eqn:Hq.
    + destruct (He eq_refl) as (-> & _). simpl. done.
    + simpl in *.
      rewrite (proj2 (Z.ltb_lt 0 _)) by lia.
      rewrite (proj2 (Z.ltb_lt 0 (Z.of_nat (sessionTotal s)))) by lia. lia.
  - intros msg. destruct (inflight s) as [|d rest] eqn:Hfl.
    + unfold step. simpl. unfold settle. rewrite Hfl. by rewrite commit_same.
    + destruct (Inv_flying s d rest HI Hfl) as (-> & _).
      destruct (step_rejected s d msg HI Hfl) as (-> & _ & _ & _ & _ & -> & _).
      done.
  - intros d Hfl.
    destruct (Inv_flying s d [] HI Hfl) as (_ & Hb & Hp & _ & Hne).
    destruct (step_resolved s d HI Hfl) as (-> & _ & _ & _ & _ & -> & _).
    apply prefix_length in Hp.
    case_bool_decide as Hrest; [by rewrite Hrest|].
    rewrite length_drop.
    assert (0 < length (offlineQueue s))%nat
      by (destruct (offlineQueue s); [done | simpl; lia]).
    rewrite (proj2 (Z.ltb_lt 0 _)) by lia. lia.
Qed.

Lemma items_done_progress_witness :
  itemsDoneOf (step (Settle Resolved) Samples.launched7) = 5%Z.
Proof.
  destruct (items_done_progress Samples.launched7 SampleFacts.launched7_reachable)
    as (_ & _ & _ & H).
  erewrite H; [|vm_compute; reflexivity]. vm_compute. reflexivity.
Defined.

(** X9.  A failed dispatch is retried with the same batch and the same
    tokens: below the ceiling the next firing sends the very items again.
    A backend that had stored the first sending (its response being lost)
    adds nothing on the retry and keeps the spreadsheet as it is, provided
    the ids of the queue are present and the sheet is not blank. *)
Theorem retry_same_batch_idempotent {js : Js.Strings}
    (s : State) (msg t1 t2 : string) (ss : gmap string Sheet) :
  armed s → idsPresent (offlineQueue s) → (syncIntervalMs s < 300000)%Z →
  ss !! "KIEMKE" ≠ Some [] →
  let sent := toBatchItem <$> take 5 (offlineQueue s) in
  let retried := step (TimerFire true) (dispatchCycle (Rejected msg) s) in
  let stored := saveBatchToKiemKeSheet true t1 (Some <$> sent) None ss in
  calls retried = (calls s ++ [sent; sent])%list
  ∧ saveBatchToKiemKeSheet true t2 (Some <$> sent) None stored.1
    = (stored.1, Added 0).
Proof.
  intros Ha Hids Hi Hss. cbv zeta. split.
  - destruct (cycle_rejected s msg Ha) as (_ & Hq & _ & Hc & _).
    destruct (cycle_rejected_armed s msg Ha) as ([Ha' | [? _]] & _); [|lia].
    destruct (step_launch _ Ha') as (_ & _ & -> & _).
    cbv zeta in *. simpl. rewrite Hc, Hq, <- app_assoc. done.
  - destruct (save_batch_fresh_rows t1 t2 (toBatchItem <$> take 5 (offlineQueue s)) None ss)
      as (_ & _ & _ & _ & H).
    apply H; [|done].
    apply Forall_fmap, Forall_take.
    eapply Forall_impl; [exact Hids|]. intros q. apply toBatchItem_hasToken.
Qed.

Lemma retry_same_batch_idempotent_witness :
  let sent := toBatchItem <$> take 5 (offlineQueue Samples.queued7) in
  let stored :=
    saveBatchToKiemKeSheet true "03/11/2026 08:00:00" (Some <$> sent) None ∅ in
  saveBatchToKiemKeSheet true "03/11/2026 08:00:10" (Some <$> sent) None stored.1
  = (stored.1, Added 0).
Proof.
  destruct (retry_same_batch_idempotent Samples.queued7 "timeout"
              "03/11/2026 08:00:00" "03/11/2026 08:00:10" ∅) as [_ H].
  - apply SampleFacts.queued7_armed.
  - unfold idsPresent. vm_compute. repeat constructor; discriminate.
  - vm_compute. reflexivity.
  - rewrite lookup_empty. discriminate.
  - exact H.
Defined.

Lemma run_confirm_ids {js : Js.Strings} cs s :
  Forall confirmable cs →
  id <$> offlineQueue (run (Confirm <$> cs) s)
  = ((id <$> offlineQueue s)
     ++ ((fun n => ("q-" ++ Js.decimal n)%string) <$> (nowId <$> cs)))%list.
Proof.
  intros Hcs. revert s. induction Hcs as [|c cs [[item Hi] [user Hu]] Hcs IH]; intros s.
  - simpl. by rewrite app_nil_r.
  - rewrite !fmap_cons, run_cons, IH.
    destruct (step_confirm s c item user Hi Hu) as (-> & _).
    rewrite fmap_app, <- app_assoc. done.
Qed.

(** X10.  Confirmations that read pairwise distinct values of the clock
    get pairwise distinct ids: a queue built from them on an empty start
    has no id twice. *)
Theorem distinct_clock_distinct_ids {js : Js.Strings} (cs : list Confirmation) :
  Forall confirmable cs → NoDup (nowId <$> cs) →
  NoDup (id <$> offlineQueue (run (Confirm <$> cs) (boot []))).
Proof.
  intros Hcs Hnd. rewrite run_confirm_ids by done.
  destruct (boot_frame []) as (-> & _). simpl.
  apply NoDup_fmap_2; [|done].
  intros n n' H. injection H as H. by apply decimal_inj.
Qed.

Lemma distinct_clock_distinct_ids_witness :
  NoDup (id <$> offlineQueue (run (Confirm <$> Samples.twelve) (boot []))).
Proof.
  apply distinct_clock_distinct_ids.
  - repeat constructor; vm_compute; eauto.
  - apply (bool_decide_unpack _). vm_compute. exact I.
Defined.

(** X11.  A timer that fires while the device is off line launches
    nothing and leaves no timer pending, although the queue has work:
    further firings and turns of the loop do nothing.  The [online] event
    then arms the timer with 100, unless the interval was 100 already, in
    which case it arms nothing; a confirmation arms it with the current
    interval. *)
Theorem offline_fire_stalls {js : Js.Strings} (s : State) :
  armed s →
  let s' := step (TimerFire false) s in
  s' = clearTimer s
  ∧ (∀ o n, Nat.iter n (dispatchCycle o) s' = s')
  ∧ (∀ onLine, step (TimerFire onLine) s' = s')
  ∧ timer (step Online s')
    = (if bool_decide (syncIntervalMs s = 100%Z) then None else Some 100%Z)
  ∧ (∀ c, confirmable c → timer (step (Confirm c) s') = Some (syncIntervalMs s)).
Proof.
  intros (HI & Hfl & Hq & Ht). cbv zeta.
  destruct (step_blocked s false HI) as [_ ->]; [by right; right|].
  split_and!; [done| | | |].
  - intros o n. induction n as [|n IH]; [done|]. simpl. rewrite IH.
    by apply cycle_stalled.
  - intros onLine. unfold step. simpl. apply commit_same.
  - destruct (step_online (clearTimer s)) as (_ & H & _).
    destruct (H Hq) as [_ ->]. done.
  - intros c [[item Hitem] [user Hu]].
    by destruct (step_confirm (clearTimer s) c item user Hitem Hu)
      as (_ & _ & _ & _ & _ & _ & _ & ->).
Qed.

Lemma offline_fire_stalls_witness :
  timer (step Online (step (TimerFire false) Samples.queued7)) = Some 100%Z.
Proof.
  destruct (offline_fire_stalls Samples.queued7 SampleFacts.queued7_armed)
    as (_ & _ & _ & H & _).
  exact H.
Defined.

(** X12.  Start-up restores the persisted queue: the session total is
    its length, the interval is 10000, nothing has been sent or shown,
    and the timer is pending with 10000 exactly when the queue has
    work, so that the loop can then launch a dispatch. *)
Theorem boot_restores (queue : list QueueItem) :
  let s := boot queue in
  offlineQueue s = queue
  ∧ sessionTotal s = length queue
  ∧ syncIntervalMs s = 10000%Z
  ∧ timer s = (if bool_decide (queue = []) then None else Some 10000%Z)
  ∧ inflight s = [] ∧ calls s = [] ∧ notifications s = []
  ∧ isSyncing s = false
  ∧ (queue ≠ [] → armed s).
Proof.
  cbv zeta.
  destruct (boot_frame queue) as (Hq & Hc & Hf).
  destruct (boot_written queue) as (Ht & Hi & Hm & Hs & Hn & _).
  split_and!; try done.
  intros Hne. unfold armed. rewrite Hq, Hm, Hf.
  split_and!; [apply boot_Inv|done|done|].
  by rewrite bool_decide_eq_false_2.
Qed.

(** ** The rest of the backend *)

Module BackendFacts.
Import Server ServerFacts Backend.

Section BackendFacts_strings.
Context {js : Js.Strings}.

Lemma loginRow_true inputUser inputPass data :
  loginRow inputUser inputPass data = true
  ↔ ∃ r, r ∈ data
         ∧ Js.trim (Js.toLowerCase (cell 0 r)) = inputUser
         ∧ Js.trim (cell 1 r) = inputPass.
Proof.
  induction data as [|r data IH]; simpl.
  - split; [done|]. intros (r & Hr & _). by apply elem_of_nil in Hr.
  - destruct (String.eqb _ inputUser) eqn:Hu; simpl.
    + destruct (String.eqb _ inputPass) eqn:Hp; simpl.
      * apply String.eqb_eq in Hu, Hp. split; [|done]. intros _.
        exists r. split; [by left|done].
      * rewrite IH. apply String.eqb_neq in Hp. split.
        -- intros (r' & Hr' & ?). exists r'. split; [by right|done].
        -- intros (r' & Hr' & Hu' & Hp'). apply elem_of_cons in Hr' as [->|Hr'].
           ++ done.
           ++ by exists r'.
    + rewrite IH. apply String.eqb_neq in Hu. split.
      * intros (r' & Hr' & ?). exists r'. split; [by right|done].
      * intros (r' & Hr' & Hu' & Hp'). apply elem_of_cons in Hr' as [->|Hr'].
        -- done.
        -- by exists r'.
Qed.

Lemma findNext_Some text rows r :
  findNext text rows = Some r →
  r ∈ rows ∧ Js.toLowerCase (cell 0 r) = Js.toLowerCase text.
Proof.
  induction rows as [|r0 rows IH]; simpl; [done|].
  destruct (String.eqb _ _) eqn:He.
  - intros [= <-]. apply String.eqb_eq in He. split; [by left|done].
  - intros H. destruct (IH H) as [? ?]. split; [by right|done].
Qed.

Lemma findNext_is_Some text rows :
  is_Some (findNext text rows)
  ↔ ∃ r, r ∈ rows ∧ Js.toLowerCase (cell 0 r) = Js.toLowerCase text.
Proof.
  split.
  - intros [r Hr]. exists r. by apply findNext_Some.
  - intros (r & Hr & Hm). induction rows as [|r0 rows IH]; simpl.
    + by apply elem_of_nil in Hr.
    + destruct (String.eqb _ _) eqn:He; [done|].
      apply String.eqb_neq in He.
      apply elem_of_cons in Hr as [->|Hr]; [done|]. by apply IH.
Qed.

Lemma toLowerCase_empty s : Js.toLowerCase s = EmptyString → s = EmptyString.
Proof. apply Js.toLowerCase_text. Qed.

Lemma truthy_true s : Js.truthy s = true ↔ s ≠ EmptyString.
Proof. destruct s; simpl; split; done. Qed.

Lemma truthy_false s : Js.truthy s = false ↔ s = EmptyString.
Proof. destruct s; simpl; split; done. Qed.

Lemma checkLogin_true (username password : string) (files : Files) :
  checkLogin (Some username) (Some password) files = true
  ↔ username ≠ EmptyString ∧ password ≠ EmptyString
    ∧ ∃ (ss : gmap string Sheet) (sheet : Sheet) (r : Row),
        files !! TARGET_SHEET_ID = Some ss ∧ ss !! "DN" = Some sheet
        ∧ r ∈ drop 1 sheet
        ∧ Js.trim (Js.toLowerCase (cell 0 r)) = Js.trim (Js.toLowerCase username)
        ∧ Js.trim (cell 1 r) = Js.trim password.
Proof.
  unfold checkLogin.
  destruct (Js.truthy username) eqn:Hu; simpl.
  2: { apply truthy_false in Hu. split; [done|]. by intros (? & _). }
  destruct (Js.truthy password) eqn:Hp; simpl.
  2: { apply truthy_false in Hp. split; [done|]. by intros (_ & ? & _). }
  apply truthy_true in Hu, Hp.
  destruct (files !! TARGET_SHEET_ID) as [ss|] eqn:Hf.
  2: { split; [done|]. by intros (_ & _ & ? & ? & ? & ? & _). }
  destruct (ss !! "DN") as [sheet|] eqn:Hs.
  2: { split; [done|]. intros (_ & _ & ss' & sheet' & r & Hf' & Hs' & _).
       by simplify_eq. }
  destruct (getLastRow sheet <? 2)%nat eqn:Hl.
  - apply Nat.ltb_lt in Hl. unfold getLastRow in Hl. split; [done|].
    intros (_ & _ & ss' & sheet' & r & Hf' & Hs' & Hr & _). simplify_eq.
    try rewrite Hs in Hs'; simplify_eq.
    rewrite drop_ge in Hr by lia. by apply elem_of_nil in Hr.
  - rewrite loginRow_true. split.
    + intros (r & ? & ? & ?). split_and!; [done..|]. by exists ss, sheet, r.
    + intros (_ & _ & ss' & sheet' & r & Hf' & Hs' & ? & ? & ?). simplify_eq.
      try rewrite Hs in Hs'; simplify_eq. by exists r.
Qed.

Lemma findNext_first text rows r :
  findNext text rows = Some r →
  ∃ before after,
    rows = (before ++ r :: after)%list
    ∧ Js.toLowerCase (cell 0 r) = Js.toLowerCase text
    ∧ Forall (fun r' => Js.toLowerCase (cell 0 r') ≠ Js.toLowerCase text) before.
Proof.
  induction rows as [|r0 rows IH]; simpl; [done|].
  destruct (String.eqb _ _) eqn:He.
  - intros [= <-]. apply String.eqb_eq in He. by exists [], rows.
  - intros H. destruct (IH H) as (before & after & -> & ? & ?).
    apply String.eqb_neq in He. exists (r0 :: before), after.
    split_and!; [done|done|by constructor].
Qed.

Lemma findNext_key text text' rows :
  Js.toLowerCase text = Js.toLowerCase text' →
  findNext text rows = findNext text' rows.
Proof.
  intros He. induction rows as [|r rows IH]; simpl; [done|]. by rewrite He, IH.
Qed.

Lemma textFinder_key text text' sheet :
  Js.toLowerCase text = Js.toLowerCase text' →
  textFinder text sheet = textFinder text' sheet.
Proof.
  intros He. unfold textFinder. rewrite (findNext_key _ _ _ He).
  assert (Js.toLowerCase EmptyString = EmptyString) as Hl
    by (by rewrite Js.toLowerCase_7bit).
  destruct text as [|c text], text' as [|c' text']; simpl; try done.
  - rewrite Hl in He. symmetry in He. by apply toLowerCase_empty in He.
  - rewrite Hl in He. by apply toLowerCase_empty in He.
Qed.

Lemma textFinder_Some text sheet r :
  textFinder text sheet = Some r → text ≠ EmptyString ∧ findNext text sheet = Some r.
Proof. unfold textFinder. by destruct text. Qed.

Lemma textFinder_found text sheet r :
  text ≠ EmptyString → r ∈ sheet →
  Js.toLowerCase (cell 0 r) = Js.toLowerCase text →
  is_Some (textFinder text sheet).
Proof.
  intros Hne Hr Hm. unfold textFinder.
  apply truthy_true in Hne. rewrite Hne. apply findNext_is_Some. by exists r.
Qed.

Lemma trim_empty : Js.trim EmptyString = EmptyString.
Proof. by rewrite Js.trim_7bit. Qed.

Lemma orElse_targetNameOf sheetName : orElse sheetName "KIEMKE" = targetNameOf sheetName.
Proof. by destruct sheetName. Qed.

Lemma searchPaperBySku_Some (sku : string) (files : Files) (p : PaperRoll) :
  searchPaperBySku (Some sku) files = Some p →
  ∃ (ss : gmap string Sheet) (before after : list Row) (r : Row),
    files !! SOURCE_SHEET_ID = Some ss
    ∧ ss !! "KHO" = Some (before ++ r :: after)%list
    ∧ p = rowToPaper r
    ∧ Js.trim sku ≠ EmptyString
    ∧ Js.toLowerCase (cell 0 r) = Js.toLowerCase (Js.trim sku)
    ∧ Forall (fun r' => Js.toLowerCase (cell 0 r') ≠ Js.toLowerCase (Js.trim sku))
        before.
Proof.
  unfold searchPaperBySku. destruct (Js.truthy sku); simpl; [|done].
  destruct (files !! SOURCE_SHEET_ID) as [ss|] eqn:Hf; [|done].
  destruct (ss !! "KHO") as [sheet|] eqn:Hs; [|done].
  destruct (textFinder (Js.trim sku) sheet) as [r|] eqn:Ht; [|done].
  intros [= <-]. apply textFinder_Some in Ht as [Hne Ht].
  apply findNext_first in Ht as (before & after & -> & ? & ?).
  by exists ss, before, after, r.
Qed.

Lemma saveBatch_granted nowStr (items : list BatchItem) spreadSheetId sheetName
    (files : Files) (ss : gmap string Sheet) :
  items ≠ [] → files !! orElse spreadSheetId TARGET_SHEET_ID = Some ss →
  let sheet := sheetFor sheetName ss in
  let rows := rowOf nowStr <$> filter (fun item => ¬ alreadyStored sheet item) items in
  saveBatch true nowStr (Some (Some <$> items)) spreadSheetId sheetName files
  = (<[orElse spreadSheetId TARGET_SHEET_ID :=
         <[targetNameOf sheetName := (sheet ++ rows)%list]> ss]> files,
     Added (length rows)).
Proof.
  intros Hne Hf. cbv zeta. unfold saveBatch. rewrite length_fmap.
  destruct items as [|i items]; [done|]. cbn [length Nat.eqb negb].
  rewrite Hf.
  by rewrite (save_granted nowStr (i :: items) sheetName ss).
Qed.

(** A batch of records, and a batch with a [null] element, under the
    lock. *)
Lemma save_cases nowStr (dataArray : list (option BatchItem)) sheetName
    (ss : gmap string Sheet) :
  dataArray ≠ [] →
  let sheet := sheetFor sheetName ss in
  (∃ items : list BatchItem,
     dataArray = Some <$> items
     ∧ saveBatchToKiemKeSheet true nowStr dataArray sheetName ss
       = (<[targetNameOf sheetName :=
              (sheet ++ (rowOf nowStr <$>
                         filter (fun item => ¬ alreadyStored sheet item) items))%list]> ss,
          Added (length (filter (fun item => ¬ alreadyStored sheet item) items))))
  ∨ (None ∈ dataArray
     ∧ saveBatchToKiemKeSheet true nowStr dataArray sheetName ss
       = (<[targetNameOf sheetName := sheet]> ss, Thrown)).
Proof.
  intros Hne. cbv zeta.
  destruct (rowsToAdd nowStr ∅ dataArray) as [rows|] eqn:Hr; cycle 1.
  - assert (None ∈ dataArray) as Hnull by (by apply (rowsToAdd_None nowStr ∅)).
    right. split; [done|]. unfold saveBatchToKiemKeSheet, sheetFor.
    destruct dataArray as [|i rest]; [done|]. cbn [length Nat.eqb negb].
    pose proof (fun ids => proj2 (rowsToAdd_None nowStr ids _) Hnull) as Hthrow.
    destruct (ss !! targetNameOf sheetName) as [sheet|] eqn:Hs; simpl default.
    + rewrite Hthrow. by rewrite insert_id.
    + by rewrite Hthrow.
  - assert (None ∉ dataArray) as Hrec.
    { intros Hn. apply (rowsToAdd_None nowStr ∅) in Hn. congruence. }
    left. exists (omap (fun x => x) dataArray).
    assert (dataArray = Some <$> omap (fun x => x) dataArray) as Heq.
    { clear Hne Hr. induction dataArray as [|[i|] rest IH]; simpl.
      - done.
      - f_equal. apply IH. intros Hn. apply Hrec. by right.
      - destruct Hrec. by left. }
    split; [done|]. rewrite Heq at 1.
    rewrite (save_granted nowStr (omap (fun x => x) dataArray) sheetName ss).
    + cbv zeta. by rewrite length_fmap.
    + intros H0. rewrite H0 in Heq. by rewrite Heq in Hne.
Qed.

Lemma saveBatch_thrown lockGranted nowStr items spreadSheetId sheetName (files : Files) :
  (saveBatch lockGranted nowStr items spreadSheetId sheetName files).2 = Thrown
  ↔ ∃ l, items = Some l ∧ l ≠ []
         ∧ (lockGranted = false
            ∨ files !! orElse spreadSheetId TARGET_SHEET_ID = None
            ∨ None ∈ l).
Proof.
  unfold saveBatch. destruct items as [[|i items]|]; simpl.
  - split; [done|]. by intros (l & [= <-] & ? & _).
  - destruct lockGranted; simpl.
    + destruct (files !! orElse spreadSheetId TARGET_SHEET_ID) as [ss|] eqn:Hf.
      * destruct (save_cases nowStr (i :: items) sheetName ss)
          as [(recs & Heq & Hs) | (Hnull & Hs)]; [done| |]; rewrite Hs; simpl.
        -- split; [done|]. intros (l & [= <-] & _ & [?|[?|Hn]]); [done..|].
           rewrite Heq in Hn. apply list_elem_of_fmap in Hn as (? & ? & _). done.
        -- split; [|done]. intros _. eexists. split_and!; [done..|]. by right; right.
      * simpl. split; [|done]. intros _. eexists. split_and!; [done..|].
        by right; left.
    + split; [|done]. intros _. eexists. split_and!; [done..|]. by left.
  - split; [done|]. by intros (l & ? & _).
Qed.

(** What a save that throws leaves: the files as they were, or with the
    missing sheet inserted, its header in row 1. *)
Lemma saveBatch_thrown_files lockGranted nowStr items spreadSheetId sheetName
    (files : Files) :
  (saveBatch lockGranted nowStr items spreadSheetId sheetName files).2 = Thrown →
  (saveBatch lockGranted nowStr items spreadSheetId sheetName files).1 = files
  ∨ ∃ (l : list (option BatchItem)) (ss : gmap string Sheet),
      items = Some l ∧ None ∈ l ∧ lockGranted = true
      ∧ files !! orElse spreadSheetId TARGET_SHEET_ID = Some ss
      ∧ ss !! targetNameOf sheetName = None
      ∧ (saveBatch lockGranted nowStr items spreadSheetId sheetName files).1
        = <[orElse spreadSheetId TARGET_SHEET_ID :=
              <[targetNameOf sheetName := [header]]> ss]> files.
Proof.
  unfold saveBatch. destruct items as [[|i items]|]; simpl; [by left| |by left].
  destruct lockGranted; simpl; [|by left].
  destruct (files !! orElse spreadSheetId TARGET_SHEET_ID) as [ss|] eqn:Hf;
    [|by left].
  destruct (save_cases nowStr (i :: items) sheetName ss)
    as [(recs & Heq & Hs) | (Hnull & Hs)]; [done| |]; rewrite Hs; simpl; [done|].
  intros _. unfold sheetFor.
  destruct (ss !! targetNameOf sheetName) as [sheet|] eqn:Hsheet; simpl.
  - left. unfold Files, Sheet, Row in *.
    rewrite (insert_id ss) by done. by rewrite insert_id.
  - right. exists (i :: items), ss. done.
Qed.

Lemma saveBatch_open nowStr (dataArray : list (option BatchItem))
    spreadSheetId sheetName (files : Files) (ss : gmap string Sheet) :
  dataArray ≠ [] → files !! orElse spreadSheetId TARGET_SHEET_ID = Some ss →
  saveBatch true nowStr (Some dataArray) spreadSheetId sheetName files
  = (<[orElse spreadSheetId TARGET_SHEET_ID :=
         (saveBatchToKiemKeSheet true nowStr dataArray sheetName ss).1]> files,
     (saveBatchToKiemKeSheet true nowStr dataArray sheetName ss).2).
Proof.
  intros Hne Hf. unfold saveBatch.
  destruct dataArray as [|i rest]; [done|]. cbn [length Nat.eqb negb].
  rewrite Hf. by destruct (saveBatchToKiemKeSheet _ _ _ _ _).
Qed.

(** Every save either writes nothing, or works on the target sheet of an
    open file: it appends rows and answers with their number, or it
    throws on a [null] element with no row appended. *)
Lemma saveBatch_shape lockGranted nowStr items spreadSheetId sheetName (files : Files) :
  let target := orElse spreadSheetId TARGET_SHEET_ID in
  let saved := saveBatch lockGranted nowStr items spreadSheetId sheetName files in
  (saved.1 = files ∧ (saved.2 = Added 0 ∨ saved.2 = Thrown))
  ∨ ∃ (l : list (option BatchItem)) (ss : gmap string Sheet) (rows : list Row),
      items = Some l ∧ l ≠ [] ∧ lockGranted = true
      ∧ files !! target = Some ss
      ∧ saved.1
        = <[target := <[targetNameOf sheetName :=
                          (sheetFor sheetName ss ++ rows)%list]> ss]> files
      ∧ (saved.2 = Added (length rows)
         ∨ saved.2 = Thrown ∧ rows = [] ∧ None ∈ l).
Proof.
  cbv zeta. destruct items as [[|i rest]|]; [left; by split; [|left]| |left; by split; [|left]].
  destruct lockGranted; [|left; by split; [|right]].
  destruct (files !! orElse spreadSheetId TARGET_SHEET_ID) as [ss|] eqn:Hf; cycle 1.
  { left. unfold saveBatch. cbn [length Nat.eqb negb]. rewrite Hf. by split; [|right]. }
  right. rewrite (saveBatch_open nowStr (i :: rest) spreadSheetId sheetName files ss)
    by done.
  destruct (save_cases nowStr (i :: rest) sheetName ss)
    as [(recs & Heq & Hs) | (Hnull & Hs)]; [done| |]; rewrite Hs; cbn [fst snd].
  - eexists (i :: rest), ss, _. split_and!; [done..|]. left. by rewrite length_fmap.
  - exists (i :: rest), ss, []. rewrite app_nil_r. split_and!; [done..|]. by right.
Qed.

Lemma searchPaperBySku_key (a b : string) (files : Files) :
  a ≠ EmptyString → b ≠ EmptyString →
  Js.toLowerCase (Js.trim a) = Js.toLowerCase (Js.trim b) →
  searchPaperBySku (Some a) files = searchPaperBySku (Some b) files.
Proof.
  intros Ha Hb He. apply truthy_true in Ha, Hb.
  unfold searchPaperBySku. rewrite Ha, Hb. simpl.
  destruct (files !! SOURCE_SHEET_ID) as [ss|]; [|done].
  destruct (ss !! "KHO") as [sheet|]; [|done].
  by rewrite (textFinder_key _ _ sheet He).
Qed.

Lemma checkSkuInKiemKe_key (a b : string) spreadSheetId sheetName (files : Files) :
  a ≠ EmptyString → b ≠ EmptyString →
  Js.toLowerCase (Js.trim a) = Js.toLowerCase (Js.trim b) →
  checkSkuInKiemKe (Some a) spreadSheetId sheetName files
  = checkSkuInKiemKe (Some b) spreadSheetId sheetName files.
Proof.
  intros Ha Hb He. apply truthy_true in Ha, Hb.
  unfold checkSkuInKiemKe. rewrite Ha, Hb. simpl.
  destruct (files !! orElse spreadSheetId TARGET_SHEET_ID) as [ss|]; [|done].
  destruct (ss !! orElse sheetName "KIEMKE") as [sheet|]; [|done].
  by rewrite (textFinder_key _ _ sheet He).
Qed.

End BackendFacts_strings.

End BackendFacts.

Import Backend BackendFacts.

(** X13.  A login succeeds exactly when user name and password are both
    given and not empty, the sheet of users exists, and some row under its
    first row holds that user name, compared in lower case and trimmed,
    and that password, compared trimmed with its letter case. *)
Theorem login_accepts {js : Js.Strings} (username password : string) (files : Files) :
  checkLogin (Some username) (Some password) files = true
  ↔ username ≠ EmptyString ∧ password ≠ EmptyString
    ∧ ∃ (ss : gmap string Sheet) (sheet : Sheet) (r : Row),
        files !! TARGET_SHEET_ID = Some ss ∧ ss !! "DN" = Some sheet
        ∧ r ∈ drop 1 sheet
        ∧ Js.trim (Js.toLowerCase (cell 0 r)) = Js.trim (Js.toLowerCase username)
        ∧ Js.trim (cell 1 r) = Js.trim password.
Proof. apply checkLogin_true. Qed.

(** X14.  A login depends on the user name only up to letter case and
    white space at its ends, and on the password only up to white space at
    its ends; without a user name or without a password it fails. *)
Theorem login_normalises {js : Js.Strings} (u u' p p' : string) (files : Files) :
  u ≠ EmptyString → u' ≠ EmptyString → p ≠ EmptyString → p' ≠ EmptyString →
  Js.trim (Js.toLowerCase u) = Js.trim (Js.toLowerCase u') →
  Js.trim p = Js.trim p' →
  checkLogin (Some u) (Some p) files = checkLogin (Some u') (Some p') files
  ∧ checkLogin None (Some p) files = false
  ∧ checkLogin (Some u) None files = false.
Proof.
  intros Hu Hu' Hp Hp' Hue Hpe. split; [|done].
  apply eq_true_iff_eq. rewrite !checkLogin_true, Hue, Hpe. tauto.
Qed.

Lemma login_normalises_witness :
  checkLogin (Some " An ") (Some "s3cret ") Samples.office
  = checkLogin (Some "AN") (Some "s3cret") Samples.office.
Proof.
  apply (login_normalises " An " "AN" "s3cret " "s3cret" Samples.office);
    (discriminate || reflexivity).
Defined.

(** X15.  Credentials that are white space only are accepted exactly when
    some row under the first row of the sheet of users has blank user and
    password cells. *)
Theorem login_blank_row {js : Js.Strings} (u p : string) (files : Files) :
  u ≠ EmptyString → p ≠ EmptyString →
  Js.trim (Js.toLowerCase u) = EmptyString → Js.trim p = EmptyString →
  checkLogin (Some u) (Some p) files = true
  ↔ ∃ (ss : gmap string Sheet) (sheet : Sheet) (r : Row),
      files !! TARGET_SHEET_ID = Some ss ∧ ss !! "DN" = Some sheet
      ∧ r ∈ drop 1 sheet
      ∧ Js.trim (Js.toLowerCase (cell 0 r)) = EmptyString
      ∧ Js.trim (cell 1 r) = EmptyString.
Proof.
  intros Hu Hp Hue Hpe. rewrite checkLogin_true, Hue, Hpe. tauto.
Qed.

Lemma login_blank_row_witness :
  checkLogin (Some " ") (Some " ") Samples.officeWithGap = true.
Proof.
  apply (login_blank_row " " " " Samples.officeWithGap);
    try (discriminate || reflexivity).
  eexists _, _, ["  "; EmptyString; "note"].
  split_and!; [reflexivity | reflexivity | | reflexivity | reflexivity].
  vm_compute. set_solver.
Defined.

(** X16.  A search that answers gives the record built from the first row
    of the stock sheet whose column A is the trimmed code, letter case
    apart: no row above it matches. *)
Theorem search_first_match {js : Js.Strings} (code : string) (files : Files) (p : PaperRoll) :
  searchPaperBySku (Some code) files = Some p →
  ∃ (ss : gmap string Sheet) (before after : list Row) (r : Row),
    files !! SOURCE_SHEET_ID = Some ss
    ∧ ss !! "KHO" = Some (before ++ r :: after)%list
    ∧ p = rowToPaper r
    ∧ Js.toLowerCase (sku p) = Js.toLowerCase (Js.trim code)
    ∧ Forall (fun r' => Js.toLowerCase (cell 0 r') ≠ Js.toLowerCase (Js.trim code))
        before.
Proof.
  intros H. apply searchPaperBySku_Some in H
    as (ss & before & after & r & ? & ? & -> & _ & ? & ?).
  by exists ss, before, after, r.
Qed.

Lemma search_first_match_witness :
  ∃ (ss : gmap string Sheet) (before after : list Row) (r : Row),
    Samples.office !! SOURCE_SHEET_ID = Some ss
    ∧ ss !! "KHO" = Some (before ++ r :: after)%list
    ∧ rowToPaper ["B2"; "In"; "PKG-2"; "Duplex"; "250"] = rowToPaper r
    ∧ Js.toLowerCase (sku (rowToPaper ["B2"; "In"; "PKG-2"; "Duplex"; "250"]))
      = Js.toLowerCase (Js.trim " b2 ")
    ∧ Forall (fun r' => Js.toLowerCase (cell 0 r') ≠ Js.toLowerCase (Js.trim " b2 "))
        before.
Proof.
  apply (search_first_match " b2 " Samples.office). vm_compute. reflexivity.
Defined.

(** X17.  The search and the status check depend on the code only up to
    letter case and white space at its ends. *)
Theorem search_key_normalised {js : Js.Strings}
    (a b : string) (spreadSheetId sheetName : option string) (files : Files) :
  a ≠ EmptyString → b ≠ EmptyString →
  Js.toLowerCase (Js.trim a) = Js.toLowerCase (Js.trim b) →
  searchPaperBySku (Some a) files = searchPaperBySku (Some b) files
  ∧ checkSkuInKiemKe (Some a) spreadSheetId sheetName files
    = checkSkuInKiemKe (Some b) spreadSheetId sheetName files.
Proof.
  intros Ha Hb He. split.
  - by apply searchPaperBySku_key.
  - by apply checkSkuInKiemKe_key.
Qed.

Lemma search_key_normalised_witness :
  searchPaperBySku (Some " b2 ") Samples.office
  = searchPaperBySku (Some "B2") Samples.office.
Proof.
  apply (search_key_normalised " b2 " "B2" None None Samples.office);
    (discriminate || reflexivity).
Defined.

(** X18.  After a save under the lock of a batch without [null]
    elements, the status check finds every item of the batch that was not
    passed over as stored already, when its [sku] is not empty and
    trimming leaves it as it is (a cell being read back as the text
    written to it). *)
Theorem saved_item_reported {js : Js.Strings}
    (nowStr : string) (dataArray : list (option BatchItem))
    (spreadSheetId sheetName : option string)
    (files : Files) (ss : gmap string Sheet) (item : BatchItem) :
  files !! orElse spreadSheetId TARGET_SHEET_ID = Some ss →
  None ∉ dataArray → Some item ∈ dataArray →
  ¬ alreadyStored (sheetFor sheetName ss) item →
  sku (payload item) ≠ EmptyString → Js.trim (sku (payload item)) = sku (payload item) →
  let saved := saveBatch true nowStr (Some dataArray) spreadSheetId sheetName files in
  exists_ (checkSkuInKiemKe (Some (sku (payload item))) spreadSheetId sheetName saved.1)
  = true.
Proof.
  intros Hf Hrec Hin Hfresh Hne Htrim. cbv zeta.
  assert (dataArray ≠ []) as Hne' by (intros ->; by apply elem_of_nil in Hin).
  rewrite (saveBatch_open nowStr dataArray spreadSheetId sheetName files ss) by done.
  destruct (save_cases nowStr dataArray sheetName ss Hne')
    as [(recs & -> & Hs) | (Hnull & _)]; [|done].
  rewrite Hs. cbn [fst]. unfold checkSkuInKiemKe.
  pose proof Hne as Ht. apply truthy_true in Ht. rewrite Ht. cbn [negb].
  unfold Files, Sheet, Row in *.
  rewrite lookup_insert_eq, orElse_targetNameOf, lookup_insert_eq, Htrim.
  match goal with
  | |- context [textFinder ?t ?sh] =>
      destruct (textFinder_found t sh (rowOf nowStr item)) as [r Hr];
        [done| |done|by rewrite Hr]
  end.
  apply elem_of_app. right. apply list_elem_of_fmap. exists item.
  split; [done|]. apply list_elem_of_filter. split; [done|].
  apply list_elem_of_fmap in Hin as (item' & [= <-] & Hin). done.
Qed.

Lemma saved_item_reported_witness :
  exists_ (checkSkuInKiemKe (Some "A1") None None
             (saveBatch true "03/11/2026 08:00:00" (Some (Some <$> Samples.batch2))
                None None Samples.office).1)
  = true.
Proof.
  apply (saved_item_reported "03/11/2026 08:00:00" (Some <$> Samples.batch2) None None
           Samples.office
           {[ "DN" := Samples.users; "KIEMKE" := [header] ]}
           {| payload := Samples.clean; _clientQueueId := Some "q-1001" |}).
  - reflexivity.
  - intros H. apply list_elem_of_fmap in H as (? & ? & _). done.
  - by left.
  - vm_compute. intros [_ H]. by apply elem_of_nil in H.
  - discriminate.
  - reflexivity.
Defined.

(** X19.  A save never removes or rewrites a row.  Every other file and
    every other sheet is as before; the rows of the target sheet stay in
    place with the new rows after them, as many as the answer counts; a
    missing target sheet stays missing or is inserted with the header in
    row 1 and the new rows under it.  A save that throws appends no row:
    it leaves the files as they were, or, when it is a [null] element of
    the batch that makes it throw, with the missing sheet inserted and
    holding its header.  It throws exactly when the batch is not empty
    and the lock is not granted, the file cannot be opened, or an
    element of the batch is [null]. *)
Theorem save_only_appends
    (lockGranted : bool) (nowStr : string)
    (items : option (list (option BatchItem)))
    (spreadSheetId sheetName : option string) (files : Files) :
  let target := orElse spreadSheetId TARGET_SHEET_ID in
  let saved := saveBatch lockGranted nowStr items spreadSheetId sheetName files in
  (∀ f, f ≠ target → saved.1 !! f = files !! f)
  ∧ (files !! target = None → saved.1 = files)
  ∧ (∀ ss : gmap string Sheet, files !! target = Some ss →
       ∃ ss' : gmap string Sheet,
         saved.1 !! target = Some ss'
         ∧ (∀ n, n ≠ targetNameOf sheetName → ss' !! n = ss !! n)
         ∧ (∀ sheet : Sheet, ss !! targetNameOf sheetName = Some sheet →
              ∃ rows : list Row,
                ss' !! targetNameOf sheetName = Some (sheet ++ rows)%list
                ∧ (∀ n, saved.2 = Added n → n = length rows)
                ∧ (saved.2 = Thrown → rows = []))
         ∧ (ss !! targetNameOf sheetName = None →
              ss' !! targetNameOf sheetName = None ∧ saved.1 = files
              ∨ ∃ rows : list Row,
                  ss' !! targetNameOf sheetName = Some (header :: rows)
                  ∧ (∀ n, saved.2 = Added n → n = length rows)
                  ∧ (saved.2 = Thrown →
                     rows = [] ∧ ∃ l, items = Some l ∧ None ∈ l)))
  ∧ (saved.2 = Thrown
     ↔ ∃ l, items = Some l ∧ l ≠ []
            ∧ (lockGranted = false ∨ files !! target = None ∨ None ∈ l)).
Proof.
  cbv zeta. split_and!; [| | |apply saveBatch_thrown].
  - intros f Hf.
    destruct (saveBatch_shape lockGranted nowStr items spreadSheetId sheetName files)
      as [[-> _] | (l & ss & rows & _ & _ & _ & _ & -> & _)]; [done|].
    unfold Files in *. by rewrite lookup_insert_ne.
  - intros Hnone.
    destruct (saveBatch_shape lockGranted nowStr items spreadSheetId sheetName files)
      as [[-> _] | (l & ss & rows & _ & _ & _ & Hss & _)]; [done|].
    unfold Files in *. by rewrite Hnone in Hss.
  - intros ss Hss.
    destruct (saveBatch_shape lockGranted nowStr items spreadSheetId sheetName files)
      as [[Hsame Hreply] | (l & ss0 & rows & Hitems & Hl & _ & Hss0 & Hsaved & Hreply)].
    + rewrite Hsame. exists ss. split_and!; [done|done| |].
      * intros sheet Hsheet. exists []. rewrite app_nil_r. split_and!; [done| |done].
        intros n Hn. destruct Hreply as [Hr|Hr]; rewrite Hr in Hn; by simplify_eq.
      * intros Hsheet. by left.
    + unfold Files, Sheet, Row in *. rewrite Hss0 in Hss. simplify_eq.
      rewrite Hsaved, lookup_insert_eq. eexists. split; [done|]. split_and!.
      * intros n Hn. by rewrite lookup_insert_ne.
      * intros sheet Hsheet. rewrite lookup_insert_eq.
        assert (sheetFor sheetName ss = sheet) as ->
          by (unfold sheetFor, Sheet, Row in *; by rewrite Hsheet).
        exists rows. split_and!; [done| |].
        -- intros n Hn. destruct Hreply as [Hr|[Hr _]]; rewrite Hr in Hn; by simplify_eq.
        -- intros Ht. destruct Hreply as [Hr|(_ & ? & _)]; [|done].
           rewrite Hr in Ht. done.
      * intros Hsheet. right. rewrite lookup_insert_eq.
        assert (sheetFor sheetName ss = [header]) as ->
          by (unfold sheetFor, Sheet, Row in *; by rewrite Hsheet).
        exists rows. split_and!; [done| |].
        -- intros n Hn. destruct Hreply as [Hr|[Hr _]]; rewrite Hr in Hn; by simplify_eq.
        -- intros Ht. destruct Hreply as [Hr|(_ & ? & ?)].
           ++ rewrite Hr in Ht. done.
           ++ split; [done|]. by exists l.
Qed.

(** X20.  [doPost] writes to the files only through a save of a batch
    that is not empty, made under the lock.  The three read actions never
    answer with an error.  An answer that is an error leaves the files as
    they are, but for one case: a save whose batch holds a [null]
    element, on a file without the target sheet, answers with an error
    after the sheet has been inserted with its header. *)
Theorem doPost_writes_only_on_save {js : Js.Strings}
    (lockGranted : bool) (nowStr thrown : string) (e : Post) (files : Files) :
  let out := doPost lockGranted nowStr thrown e files in
  (out.1 ≠ files →
     ∃ items spreadSheetId sheetName,
       e = Posted (CallSaveBatch (Some items) spreadSheetId sheetName)
       ∧ items ≠ [] ∧ lockGranted = true)
  ∧ (∀ m, out.2 = WError m →
       match e with
       | Posted (CallCheckLogin _ _) | Posted (CallSearchPaperBySku _)
       | Posted (CallCheckSkuInKiemKe _ _ _) => False
       | Posted (CallSaveBatch items spreadSheetId sheetName) =>
           out.1 = files
           ∨ ∃ (l : list (option BatchItem)) (ss : gmap string Sheet),
               items = Some l ∧ None ∈ l
               ∧ files !! orElse spreadSheetId TARGET_SHEET_ID = Some ss
               ∧ ss !! targetNameOf sheetName = None
               ∧ out.1 = <[orElse spreadSheetId TARGET_SHEET_ID :=
                             <[targetNameOf sheetName := [header]]> ss]> files
       | _ => out.1 = files
       end).
Proof.
  cbv zeta. destruct e as [| |[u p|sku|sku i n|items i n|action]]; simpl;
    try (split; [done|]; intros m Hm; by simplify_eq).
  pose proof (saveBatch_shape lockGranted nowStr items i n files) as Hshape.
  pose proof (saveBatch_thrown_files lockGranted nowStr items i n files) as Hf.
  cbv zeta in Hshape.
  destruct (saveBatch lockGranted nowStr items i n files) as [files' [k|]] eqn:Hs;
    simpl in *.
  - split; [|by intros m [=]]. intros Hne.
    destruct Hshape as [[? _] | (l & ss & rows & -> & ? & -> & _)]; [done|].
    by exists l, i, n.
  - split.
    + intros Hne.
      destruct Hshape as [[? _] | (l & ss & rows & -> & ? & -> & _)]; [done|].
      by exists l, i, n.
    + intros m _. destruct (Hf eq_refl) as [?|(l & ss & ? & ? & _ & ? & ? & ?)];
        [by left|]. right. by exists l, ss.
Qed.

(** ** The transport in front of the backend *)

Module TransportFacts.
Import Sync Server ServerFacts Backend BackendFacts Api.

Section TransportFacts_strings.
Context {js : Js.Strings}.

Lemma saveOverHttp_cases lockGranted nowStr thrown items (files : Files) :
  items ≠ [] →
  (∃ ss : gmap string Sheet,
     lockGranted = true ∧ files !! TARGET_SHEET_ID = Some ss
     ∧ let sheet := sheetFor None ss in
       let rows :=
         rowOf nowStr <$> filter (fun item => ¬ alreadyStored sheet item) items in
       saveOverHttp lockGranted nowStr thrown items files
       = (<[TARGET_SHEET_ID := <["KIEMKE" := (sheet ++ rows)%list]> ss]> files,
          Returns (PData (DAdded (length rows)))))
  ∨ ((lockGranted = false ∨ files !! TARGET_SHEET_ID = None)
     ∧ saveOverHttp lockGranted nowStr thrown items files
       = (files,
          Throws (if Js.truthy thrown then thrown else "Loi xu ly tu Server"))).
Proof.
  intros Hne. unfold saveOverHttp, doPost.
  destruct lockGranted.
  - destruct (files !! TARGET_SHEET_ID) as [ss|] eqn:Hf.
    + left. exists ss. split_and!; [done..|]. cbv zeta.
      by rewrite (saveBatch_granted nowStr items None None files ss).
    + right. split; [by right|]. unfold saveBatch.
      destruct items; [done|]. simpl. unfold Files in *. by rewrite Hf.
  - right. split; [by left|]. unfold saveBatch. by destruct items.
Qed.


End TransportFacts_strings.

End TransportFacts.
Import Api TransportFacts.

(** X21.  A save sent over HTTP to the backend resolves exactly when the
    batch is empty or the lock is granted and the file of results opens;
    when it is rejected the files are as before and the message is the
    text of the exception, or the default text when that is empty. *)
Theorem save_over_http {js : Js.Strings}
    (lockGranted : bool) (nowStr thrown : string) (items : list BatchItem)
    (files : Files) :
  let out := saveOverHttp lockGranted nowStr thrown items files in
  (outcomeOf out.2 = Resolved
   ↔ items = [] ∨ lockGranted = true ∧ is_Some (files !! TARGET_SHEET_ID))
  ∧ (∀ m, outcomeOf out.2 = Rejected m →
       out.1 = files
       ∧ m = if Js.truthy thrown then thrown else "Loi xu ly tu Server").
Proof.
  cbv zeta. destruct items as [|i items]; [by split; [split; [left|]|]|].
  destruct (saveOverHttp_cases lockGranted nowStr thrown (i :: items) files)
    as [(ss & -> & Hf & ->) | (Hc & ->)]; [done| |]; simpl.
  - split; [|done]. split; [|done]. intros _. right. by rewrite Hf.
  - split; [|by intros m [= <-]]. split; [done|].
    intros [|[-> [ss Hss]]]; [done|]. destruct Hc as [|Hc]; [done|].
    by rewrite Hc in Hss.
Qed.

(** X22.  A dispatch shortens the queue exactly when the response is
    [ok], parses as JSON and is not the error wrapper: the success
    wrapper, and also any other JSON, count as a save. *)
Theorem dispatch_by_response {js : Js.Strings} (s : State) (h : Http) :
  armed s →
  offlineQueue (dispatchCycle (outcomeOf (runServerFn h)) s)
  = match h with
    | Response true _ (JsonWire (WSuccess _)) | Response true _ JsonOther =>
        drop 5 (offlineQueue s)
    | _ => offlineQueue s
    end.
Proof.
  intros Ha.
  pose proof (cycle_resolved s Ha) as (_ & Hr & _).
  assert (∀ m, offlineQueue (dispatchCycle (Rejected m) s) = offlineQueue s) as Hj.
  { intros m. by pose proof (cycle_rejected s m Ha) as (_ & ? & _). }
  destruct h as [m | [] line [|[d|m]|]]; simpl; try exact Hr; apply Hj.
Qed.

Lemma dispatch_by_response_witness :
  offlineQueue
    (dispatchCycle (outcomeOf (runServerFn (Response true "200 OK" JsonOther)))
       Samples.queued7)
  = drop 5 (offlineQueue Samples.queued7).
Proof.
  apply (dispatch_by_response Samples.queued7 (Response true "200 OK" JsonOther)).
  apply SampleFacts.queued7_armed.
Defined.



(** ** The cache under searching and editing *)

Module SearchFacts.
Import Backend BackendFacts CacheFacts.

Section SearchFacts_strings.
Context {js : Js.Strings}.

Lemma updateCache_keeps item (cache : gmap string PaperRoll) k :
  is_Some (cache !! k) → is_Some (Cache.updateCache item cache !! k).
Proof.
  intros Hk. unfold Cache.updateCache.
  destruct (Js.truthy (sku item)), (Js.truthy (packageId item));
    rewrite ?lookup_insert_is_Some'; tauto.
Qed.


Lemma handleSearch_hit code searchApi statusApi v r :
  Search.dataCache v !! Cache.normalizedCode code = Some r →
  Search.handleSearch code searchApi statusApi v
  = ({| Search.foundItem := Some r;
        Search.searchError := false;
        Search.checkStatus :=
          Search.statusSeen None (statusApi (Cache.normalizedCode code));
        Search.isLoadingSearch := Search.isLoadingSearch v;
        Search.dataCache := Search.dataCache v;
        Search.notices := Search.notices v |},
     [Search.CheckSkuInKiemKe (Cache.normalizedCode code)]).
Proof. intros H. unfold Search.handleSearch, Cache.normalizedCode in *. by rewrite H. Qed.

Lemma handleSearch_found code searchApi statusApi v p :
  Search.dataCache v !! Cache.normalizedCode code = None →
  searchApi code = Search.Ok (Some p) →
  Search.handleSearch code searchApi statusApi v
  = ({| Search.foundItem := Some p;
        Search.searchError := false;
        Search.checkStatus :=
          Search.statusSeen None (statusApi (Cache.normalizedCode code));
        Search.isLoadingSearch := false;
        Search.dataCache := Cache.updateCache p (Search.dataCache v);
        Search.notices := Search.notices v |},
     [Search.SearchPaperBySku code;
      Search.CheckSkuInKiemKe (Cache.normalizedCode code)]).
Proof.
  intros H Hs. unfold Search.handleSearch, Cache.normalizedCode in *.
  by rewrite H, Hs.
Qed.

Lemma normalizedCode_nonempty code :
  Js.trim code ≠ EmptyString → Cache.normalizedCode code ≠ EmptyString.
Proof. intros Hne He. by apply Js.toLowerCase_text in He. Qed.

End SearchFacts_strings.

End SearchFacts.
Import CacheFacts SearchFacts.

(** X24.  A code that the backend finds and the cache does not hold is
    fetched once: the first search calls the search action with the code
    as typed and then the status action with the normalized code, shows
    the record and caches it; the same search again is served from the
    cache with the status call only, shows the same record and the same
    status, and leaves the cache as it is. *)
Theorem search_read_through {js : Js.Strings}
    (code : string) (files : Files) (v : Search.View) (p : PaperRoll) :
  searchPaperBySku (Some code) files = Some p →
  Search.dataCache v !! Cache.normalizedCode code = None →
  let api := Search.handleSearch code
               (Search.searchBackend files) (Search.statusBackend files) in
  let first := api v in
  let second := api first.1 in
  Search.foundItem first.1 = Some p
  ∧ first.2 = [Search.SearchPaperBySku code;
               Search.CheckSkuInKiemKe (Cache.normalizedCode code)]
  ∧ Search.dataCache first.1 = Cache.updateCache p (Search.dataCache v)
  ∧ Search.foundItem second.1 = Some p
  ∧ second.2 = [Search.CheckSkuInKiemKe (Cache.normalizedCode code)]
  ∧ Search.dataCache second.1 = Search.dataCache first.1
  ∧ Search.checkStatus first.1
    = Search.statusSeen None
        (Search.Ok
           (checkSkuInKiemKe (Some (Cache.normalizedCode code)) None None files))
  ∧ Search.checkStatus second.1 = Search.checkStatus first.1.
Proof.
  intros Hs Hmiss. cbv zeta.
  rewrite (handleSearch_found code _ _ v p Hmiss)
    by (unfold Search.searchBackend; by rewrite Hs).
  cbn [fst snd].
  destruct (searchPaperBySku_Some code files p Hs)
    as (ss & before & after & r & _ & _ & -> & Hne & Hkey & _).
  assert (Cache.updateCache (rowToPaper r) (Search.dataCache v)
            !! Cache.normalizedCode code = Some (rowToPaper r)) as Hhit.
  { unfold Cache.normalizedCode. rewrite <- Hkey.
    apply (updateCache_lookup (rowToPaper r)); [by left|].
    apply truthy_true. intros He. apply (normalizedCode_nonempty code Hne).
    unfold Cache.normalizedCode. rewrite <- Hkey.
    change (sku (rowToPaper r)) with (cell 0 r) in He.
    rewrite He. by rewrite Js.toLowerCase_7bit. }
  rewrite (handleSearch_hit code _ _ _ (rowToPaper r)) by done.
  cbn [fst snd Search.foundItem Search.dataCache Search.checkStatus].
  done.
Qed.

Lemma search_read_through_witness :
  let api := Search.handleSearch " b2 "
               (Search.searchBackend Samples.office)
               (Search.statusBackend Samples.office) in
  (api (api {| Search.foundItem := None; Search.searchError := false;
               Search.checkStatus := None; Search.isLoadingSearch := false;
               Search.dataCache := ∅; Search.notices := [] |}).1).2
  = [Search.CheckSkuInKiemKe "b2"].
Proof.
  destruct (search_read_through " b2 " Samples.office
              {| Search.foundItem := None; Search.searchError := false;
                 Search.checkStatus := None; Search.isLoadingSearch := false;
                 Search.dataCache := ∅; Search.notices := [] |}
              (rowToPaper ["B2"; "In"; "PKG-2"; "Duplex"; "250"]))
    as (_ & _ & _ & _ & H & _).
  - vm_compute. reflexivity.
  - reflexivity.
  - exact H.
Defined.

(** X25.  A search that misses the cache and finds nothing, or whose call
    fails, shows no record, raises the error flag, adds one error
    notification and leaves the cache as it is: nothing is remembered of
    it, and the same search again calls the backend again. *)
Theorem search_failure_not_cached {js : Js.Strings}
    (code : string) (searchApi : string → Search.Answer (option PaperRoll))
    (statusApi : string → Search.Answer CheckStatus) (v : Search.View) :
  Search.dataCache v !! Cache.normalizedCode code = None →
  (∀ p, searchApi code ≠ Search.Ok (Some p)) →
  let out := Search.handleSearch code searchApi statusApi v in
  Search.foundItem out.1 = None
  ∧ Search.searchError out.1 = true
  ∧ Search.checkStatus out.1 = None
  ∧ Search.dataCache out.1 = Search.dataCache v
  ∧ length (Search.notices out.1) = S (length (Search.notices v))
  ∧ out.2 = [Search.SearchPaperBySku code]
  ∧ (Search.handleSearch code searchApi statusApi out.1).2
    = [Search.SearchPaperBySku code].
Proof.
  intros Hmiss Hnone. cbv zeta.
  unfold Search.handleSearch, Cache.normalizedCode in *. rewrite Hmiss.
  destruct (searchApi code) as [[p|]|m] eqn:Hs; [by destruct (Hnone p)| |];
    cbn [fst snd Search.foundItem Search.searchError Search.checkStatus
         Search.dataCache Search.notices];
    rewrite ?Hmiss, ?length_app; simpl; split_and!; (done || lia).
Qed.

Lemma search_failure_not_cached_witness :
  Search.dataCache
    (Search.handleSearch "zz" (Search.searchBackend Samples.office)
       (Search.statusBackend Samples.office)
       {| Search.foundItem := None; Search.searchError := false;
          Search.checkStatus := None; Search.isLoadingSearch := false;
          Search.dataCache := ∅; Search.notices := [] |}).1
  = ∅.
Proof.
  destruct (search_failure_not_cached "zz" (Search.searchBackend Samples.office)
              (Search.statusBackend Samples.office)
              {| Search.foundItem := None; Search.searchError := false;
                 Search.checkStatus := None; Search.isLoadingSearch := false;
                 Search.dataCache := ∅; Search.notices := [] |})
    as (_ & _ & _ & H & _).
  - reflexivity.
  - intros p. vm_compute. discriminate.
  - exact H.
Defined.

(** X26.  The cache never forgets a key: searching, editing and
    confirming keep every key that was cached, whatever they add or
    overwrite. *)
Theorem cache_never_shrinks {js : Js.Strings} (k : string) :
  (∀ code searchApi statusApi v,
     is_Some (Search.dataCache v !! k) →
     is_Some (Search.dataCache (Search.handleSearch code searchApi statusApi v).1 !! k))
  ∧ (∀ field value v,
       is_Some (Search.dataCache v !! k) →
       is_Some (Search.dataCache (Search.handleUpdateItem field value v) !! k))
  ∧ (∀ e s, is_Some (dataCache s !! k) → is_Some (dataCache (step e s) !! k)).
Proof.
  split_and!.
  - intros code searchApi statusApi v Hk. unfold Search.handleSearch. cbv zeta.
    destruct (Search.dataCache v !! Js.toLowerCase (Js.trim code)); [done|].
    destruct (searchApi code) as [[p|]|m]; simpl; [|done..].
    by apply updateCache_keeps.
  - intros field value v Hk. unfold Search.handleUpdateItem.
    destruct (Search.foundItem v); [|done]. by apply updateCache_keeps.
  - intros e s Hk. unfold step. rewrite commit_dataCache.
    destruct e as [c | onLine | o | | onLine]; simpl.
    + unfold handleConfirmCheck.
      destruct (itemToSave c), (currentUser c); simpl; try done.
      by apply updateCache_keeps.
    + destruct (timer s); [|done]. unfold processSyncQueue. simpl.
      by destruct (_ || _ || _).
    + unfold settle. destruct (inflight s); [done|].
      destruct o; simpl; [done|]. by destruct (60000 <? _)%Z.
    + unfold handleOnline. by destruct (0 <? _)%nat.
    + unfold handleManualSync. destruct onLine; simpl; [|done].
      by destruct (_ =? 0)%nat.
Qed.


(** X28.  The timeout of a notification removes it together with any
    other notification shown in the same millisecond; when the ids of the
    notifications shown before come from other values of the clock, it
    removes that one alone. *)
Theorem toast_dismiss
    {M : Type} (now : Z) (m : M) (prev : list (Toast.Notification M)) :
  let on_timeout :=
    Toast.removeNotification (Js.decimal now) (Toast.showNotification now m prev) in
  on_timeout = Toast.removeNotification (Js.decimal now) prev
  ∧ Forall (fun n => Toast.id n ≠ Js.decimal now) on_timeout
  ∧ (∀ clocks : list Z,
       Toast.id <$> prev = Js.decimal <$> clocks → now ∉ clocks →
       on_timeout = prev).
Proof.
  cbv zeta. unfold Toast.removeNotification, Toast.showNotification.
  rewrite List.filter_app. simpl. rewrite String.eqb_refl. simpl.
  rewrite app_nil_r. split_and!; [done| |].
  - apply Forall_forall. intros n Hn. apply list_elem_of_In, List.filter_In in Hn as [_ Hn].
    apply negb_true_iff, String.eqb_neq in Hn. done.
  - intros clocks. revert prev. induction clocks as [|c clocks IH];
      intros [|n prev]; simpl; try done.
    intros [= Hn Hprev] Hnot. apply not_elem_of_cons in Hnot as [Hc Hnot].
    destruct (String.eqb_spec (Toast.id n) (Js.decimal now)) as [He|He]; simpl.
    + rewrite Hn in He. by apply decimal_inj in He.
    + f_equal. by apply IH.
Qed.
